(** * py-php-session: a verification development

  A shallow embedding of the [php_session] package (sanitize.py,
  decode.py, exceptions.py, context.py, config.py, constants.py and
  manager.py) together with the properties its specification states.

  Conventions of the embedding:
  - a Python [str] is the list of its Unicode code points ([pystr]);
    [bytes] is the list of its octets ([pybytes]);
  - a Python [dict] is an association list in insertion order whose keys
    are pairwise distinct;
  - a Python [float] used as a duration is an exact rational number of
    seconds ([Q]);
  - a function that may raise returns a sum whose left side is the
    exception;
  - the Redis server is a finite map from keys to values with an absolute
    expiry instant, read through a virtual clock. *)

From Stdlib Require Import ZArith NArith QArith Qround Lia Lqa String Ascii List Bool.
From stdpp Require Import gmap strings list fin_maps.
Import ListNotations.

Set Warnings "-register-all".

Local Open Scope N_scope.

(** ** Python strings *)

Module PyStr.

(** A [str] as the sequence of its code points. *)
Definition pystr : Type := list N.

(** [bytes] as the sequence of its octets. *)
Definition pybytes : Type := list N.

(** The [str] literal with the given ASCII text. *)
Definition str (s : string) : pystr := map N_of_ascii (list_ascii_of_string s).

(** [ch.isspace()] for one code point: the table of CPython's
    [_PyUnicode_IsWhitespace], which [str.strip()] consults. *)
Definition isspace (c : N) : bool :=
  ((9 <=? c) && (c <=? 13)) || ((28 <=? c) && (c <=? 32))
  || (c =? 133) || (c =? 160) || (c =? 5760)
  || ((8192 <=? c) && (c <=? 8202))
  || (c =? 8232) || (c =? 8233) || (c =? 8239) || (c =? 8287) || (c =? 12288).

Fixpoint lstrip (s : pystr) : pystr :=
  match s with
  | c :: s' => if isspace c then lstrip s' else s
  | [] => []
  end.

Definition rstrip (s : pystr) : pystr := rev (lstrip (rev s)).

(** [s.strip()] *)
Definition strip (s : pystr) : pystr := rstrip (lstrip s).

(** [s.startswith(p)] *)
Fixpoint startswith (s p : pystr) : bool :=
  match p, s with
  | [], _ => true
  | _ :: _, [] => false
  | a :: p', b :: s' => (a =? b) && startswith s' p'
  end.

(** [s[:n]] for [n >= 0] *)
Definition slice_to (n : nat) (s : pystr) : pystr := firstn n s.

(** [c in s] for a single code point *)
Definition contains (c : N) (s : pystr) : bool := existsb (N.eqb c) s.

End PyStr.
Export PyStr.

(** ** constants.py: the session id pattern *)

Module Pattern.

(** The character class [[a-zA-Z0-9]]. *)
Definition alnum_class (c : N) : bool :=
  ((97 <=? c) && (c <=? 122)) || ((65 <=? c) && (c <=? 90))
  || ((48 <=? c) && (c <=? 57)).

(** The anchor [$] of Python's [re] without [re.MULTILINE]: the end of the
    string, or the position just before a newline that ends the string. *)
Definition at_end (rest : pystr) : bool :=
  match rest with
  | [] => true
  | [10] => true
  | _ => false
  end.

(** Greedy bounded repetition [cls{lo,hi}] followed by the continuation
    [k], with backtracking: take one more character when allowed, and fall
    back to the continuation once the lower bound is reached. *)
Fixpoint repeat_class (cls : N -> bool) (lo hi : nat) (k : pystr -> bool)
         (s : pystr) : bool :=
  match hi with
  | O => match lo with O => k s | S _ => false end
  | S hi' =>
      match s with
      | c :: s' => cls c && repeat_class cls (Nat.pred lo) hi' k s'
      | [] => false
      end
      || match lo with O => k s | S _ => false end
  end.

(** [PHPSESSID_PATTERN.match(s)] is not [None]; the pattern is
    [^[a-zA-Z0-9]{26,128}$] and [match] anchors at the start. *)
Definition PHPSESSID_PATTERN_match (s : pystr) : bool :=
  repeat_class alnum_class 26 128 at_end s.

End Pattern.
Export Pattern.

(** ** sanitize.py *)

Module Sanitize.

(** [sanitize_phpsessid(session_id, logger)]: the logger only receives
    warnings and does not influence the result, so it is left out. *)
Definition sanitize_phpsessid (session_id : option pystr) : option pystr :=
  match session_id with
  | None => None
  | Some [] => None
  | Some s =>
      let session_id := strip s in
      if negb (PHPSESSID_PATTERN_match session_id) then None
      else if contains 0 session_id then None
      else Some session_id
  end.

(** The specification's reading of "matches [^[A-Za-z0-9]{26,128}$]
    exactly": between 26 and 128 characters, every one a letter or digit
    of ASCII. *)
Definition is_ascii_alnum (c : N) : bool :=
  ((65 <=? c) && (c <=? 90)) || ((97 <=? c) && (c <=? 122))
  || ((48 <=? c) && (c <=? 57)).

Definition exactly_alnum_26_128 (s : pystr) : bool :=
  forallb is_ascii_alnum s
  && (26 <=? length s)%nat && (length s <=? 128)%nat.

End Sanitize.
Export Sanitize.


(** ** Python values *)

Module Values.

(** A key of a nested [dict]: [phpserialize] yields integer and string keys,
    [json] string keys only. *)
Inductive pykey : Type :=
| KInt (z : Z)
| KStr (s : pystr).

(** The values a session holds: [None], [bool], [int], [float] (named by the
    text [repr()] gives it; the package never looks inside a float), [str],
    [list] and [dict]. *)
Inductive pyvalue : Type :=
| PNone
| PBool (b : bool)
| PInt (z : Z)
| PFloat (repr : pystr)
| PStr (s : pystr)
| PList (l : list pyvalue)
| PDict (d : list (pykey * pyvalue)).

(** The session mapping, [dict[str, Any]], in insertion order. *)
Definition record : Type := list (pystr * pyvalue).

(** [d.get(k)] *)
Fixpoint dict_get (d : record) (k : pystr) : option pyvalue :=
  match d with
  | [] => None
  | (k', v) :: d' => if bool_decide (k' = k) then Some v else dict_get d' k
  end.

(** [d[k] = v]: an existing key keeps its position, a new key goes last. *)
Fixpoint dict_setitem (d : record) (k : pystr) (v : pyvalue) : record :=
  match d with
  | [] => [(k, v)]
  | (k', v') :: d' =>
      if bool_decide (k' = k) then (k, v) :: d' else (k', v') :: dict_setitem d' k v
  end.

(** [d.items()] *)
Definition dict_items (d : record) : list (pystr * pyvalue) := d.

(** [d.keys()] *)
Definition dict_keys (d : record) : list pystr := map fst d.

(** The mapping as a value (what a function typed [Any] returns). *)
Definition as_value (d : record) : pyvalue :=
  PDict (map (fun kv => (KStr (fst kv), snd kv)) d).

(** [isinstance(v, str)] *)
Definition is_str (v : pyvalue) : bool :=
  match v with PStr _ => true | _ => false end.

End Values.
Export Values.

(** ** decode.py *)

Module Decode.

Section WithJson.

(** [json.loads] on a [str]: the parsed value, or [None] when it raises
    [json.JSONDecodeError] (a [ValueError]). *)
Variable json_loads : pystr -> option pyvalue.

(** [(json_fields and key in json_fields) or (json_prefix and
    key.startswith(json_prefix))], as a truth value. [None] and the empty
    set, like [None] and the empty string, are false. *)
Definition should_decode (json_fields : option (gset pystr))
           (json_prefix : option pystr) (key : pystr) : bool :=
  match json_fields with
  | None => false
  | Some fs => negb (bool_decide (fs = ∅)) && bool_decide (key ∈ fs)
  end
  || match json_prefix with
     | None => false
     | Some [] => false
     | Some p => startswith key p
     end.

(** One turn of the loop over [data.items()]. *)
Definition decode_item (json_fields : option (gset pystr))
           (json_prefix : option pystr) (data : record)
           (item : pystr * pyvalue) : record :=
  let '(key, value) := item in
  match value with
  | PStr text =>
      if should_decode json_fields json_prefix key then
        match json_loads text with
        | Some parsed => dict_setitem data key parsed
        | None => data
        end
      else data
  | _ => data
  end.

(** [decode_json_fields(data, json_fields, json_prefix)]: the loop assigns
    to keys that exist already, so the view it walks keeps its entries. *)
Definition decode_json_fields (data : record) (json_fields : option (gset pystr))
           (json_prefix : option pystr) : record :=
  fold_left (decode_item json_fields json_prefix) (dict_items data) data.

End WithJson.

End Decode.
Export Decode.

(** ** A reference reader for JSON text

    [json.loads] belongs to Python's standard library, so the package's
    functions take it as a parameter. This reader instantiates the parameter
    on concrete inputs. It covers JSON text built from [null], [true],
    [false], integers, strings with the two-character escapes, arrays and
    objects; text with a fraction, an exponent, a [\u] escape or one of
    Python's extra constants is outside it and is rejected. *)

Module JsonRef.

Definition is_json_ws (c : N) : bool :=
  (c =? 32) || (c =? 9) || (c =? 10) || (c =? 13).

Fixpoint skip_ws (s : pystr) : pystr :=
  match s with
  | c :: s' => if is_json_ws c then skip_ws s' else s
  | [] => []
  end.

Definition is_digit (c : N) : bool := (48 <=? c) && (c <=? 57).

(** The digits at the front of [s], read as a number continuing [acc]. *)
Fixpoint read_digits (acc : N) (s : pystr) : N * pystr :=
  match s with
  | c :: s' => if is_digit c then read_digits (10 * acc + (c - 48)) s' else (acc, s)
  | [] => (acc, [])
  end.

(** An integer literal without sign: one digit, or several not starting
    with a zero; no fraction or exponent may follow. *)
Definition read_nat (s : pystr) : option (N * pystr) :=
  match s with
  | c :: s' =>
      if is_digit c then
        let '(n, rest) := read_digits 0 s in
        let leading_zero := (c =? 48) && match s' with d :: _ => is_digit d | [] => false end in
        let continues := match rest with
                         | d :: _ => (d =? 46) || (d =? 101) || (d =? 69)
                         | [] => false
                         end in
        if leading_zero || continues then None else Some (n, rest)
      else None
  | [] => None
  end.

Definition unescape (c : N) : option N :=
  if c =? 34 then Some 34 else if c =? 92 then Some 92
  else if c =? 47 then Some 47 else if c =? 98 then Some 8
  else if c =? 102 then Some 12 else if c =? 110 then Some 10
  else if c =? 114 then Some 13 else if c =? 116 then Some 9
  else None.

(** The body of a string literal after its opening quote, up to and without
    the closing quote. *)
Fixpoint read_string (acc : pystr) (s : pystr) : option (pystr * pystr) :=
  match s with
  | [] => None
  | 34 :: rest => Some (rev acc, rest)
  | 92 :: c :: rest =>
      match unescape c with
      | Some d => read_string (d :: acc) rest
      | None => None
      end
  | c :: rest => if c <? 32 then None else read_string (c :: acc) rest
  end.

Fixpoint expect (word : pystr) (s : pystr) : option pystr :=
  match word, s with
  | [], _ => Some s
  | a :: word', b :: s' => if a =? b then expect word' s' else None
  | _ :: _, [] => None
  end.

(** [obj[k] = v] while an object is built: a repeated name keeps its first
    position and takes the last value. *)
Fixpoint member_set (d : list (pykey * pyvalue)) (k : pystr) (v : pyvalue)
  : list (pykey * pyvalue) :=
  match d with
  | [] => [(KStr k, v)]
  | (KStr k', v') :: d' =>
      if bool_decide (k' = k) then (KStr k, v) :: d' else (KStr k', v') :: member_set d' k v
  | kv :: d' => kv :: member_set d' k v
  end.

(** One value at the front of [s]; [fuel] bounds the nesting depth. *)
Fixpoint read_value (fuel : nat) (s : pystr) : option (pyvalue * pystr) :=
  match fuel with
  | O => None
  | S fuel' =>
      match skip_ws s with
      | (110 :: _) as t => option_map (pair PNone) (expect (str "null") t)
      | (116 :: _) as t => option_map (pair (PBool true)) (expect (str "true") t)
      | (102 :: _) as t => option_map (pair (PBool false)) (expect (str "false") t)
      | 34 :: t =>
          match read_string [] t with
          | Some (text, rest) => Some (PStr text, rest)
          | None => None
          end
      | 45 :: t =>
          match read_nat t with
          | Some (n, rest) => Some (PInt (- Z.of_N n), rest)
          | None => None
          end
      | 91 :: t =>
          match skip_ws t with
          | 93 :: rest => Some (PList [], rest)
          | t1 =>
              (fix elements (n : nat) (acc : list pyvalue) (r : pystr) {struct n}
                 : option (pyvalue * pystr) :=
                 match n with
                 | O => None
                 | S n' =>
                     match read_value fuel' r with
                     | Some (v, r1) =>
                         match skip_ws r1 with
                         | 44 :: r2 => elements n' (v :: acc) r2
                         | 93 :: r2 => Some (PList (rev (v :: acc)), r2)
                         | _ => None
                         end
                     | None => None
                     end
                 end) (length t1) [] t1
          end
      | 123 :: t =>
          match skip_ws t with
          | 125 :: rest => Some (PDict [], rest)
          | t1 =>
              (fix members (n : nat) (acc : list (pykey * pyvalue)) (r : pystr) {struct n}
                 : option (pyvalue * pystr) :=
                 match n with
                 | O => None
                 | S n' =>
                     match skip_ws r with
                     | 34 :: r0 =>
                         match read_string [] r0 with
                         | Some (name, r1) =>
                             match skip_ws r1 with
                             | 58 :: r2 =>
                                 match read_value fuel' r2 with
                                 | Some (v, r3) =>
                                     match skip_ws r3 with
                                     | 44 :: r4 => members n' (member_set acc name v) r4
                                     | 125 :: r4 => Some (PDict (member_set acc name v), r4)
                                     | _ => None
                                     end
                                 | None => None
                                 end
                             | _ => None
                             end
                         | None => None
                         end
                     | _ => None
                     end
                 end) (length t1) [] t1
          end
      | t =>
          match read_nat t with
          | Some (n, rest) => Some (PInt (Z.of_N n), rest)
          | None => None
          end
      end
  end.

(** The reader: one value, then nothing but white space. *)
Definition json_loads (s : pystr) : option pyvalue :=
  match read_value (S (length s)) s with
  | Some (v, rest) => match skip_ws rest with [] => Some v | _ => None end
  | None => None
  end.

End JsonRef.

(** ** Literals used in the examples *)

Module Literals.

(** [s] between double quotes. *)
Definition quoted (s : string) : pystr := [34] ++ str s ++ [34].

(** The JSON text of the array of the strings [a] and [b]. *)
Definition json_array_a_b : pystr :=
  str "[" ++ quoted "a" ++ str "," ++ quoted "b" ++ str "]".

End Literals.
Export Literals.

(** ** The JSON sub-field pass as the specification words it *)

Module DecodeSpec.

(** "whose key is in the known-field set": no set given is the empty set. *)
Definition in_known_fields (known : option (gset pystr)) (key : pystr) : bool :=
  match known with
  | Some fs => bool_decide (key ∈ fs)
  | None => false
  end.


(** The same with "set" read as "given and not empty". *)
Definition selected (known : option (gset pystr)) (prefix : option pystr)
           (key : pystr) : bool :=
  in_known_fields known key
  || match prefix with
     | Some p => negb (bool_decide (p = [])) && startswith key p
     | None => false
     end.

(** What an entry holds afterwards: a selected string entry holds its parsed
    JSON value when the string is valid JSON and itself when it is not; any
    other entry holds what it held. *)
Definition subfield (json_loads : pystr -> option pyvalue) (sel : pystr -> bool)
           (entry : pystr * pyvalue) : pystr * pyvalue :=
  match snd entry with
  | PStr text =>
      if sel (fst entry) then
        match json_loads text with
        | Some parsed => (fst entry, parsed)
        | None => entry
        end
      else entry
  | _ => entry
  end.

End DecodeSpec.
Export DecodeSpec.

(** ** exceptions.py *)

Module Exceptions.

(** The exceptions that occur: the package's own three, the [ValueError] of
    a malformed blob or of a rejected configuration, the error reply of the
    Redis server, and whatever else a caller's block may raise. *)
Inductive pyexc : Type :=
| SessionContextError
| SessionLockError (session_id : pystr) (timeout : Q)
| SessionNotFoundError (session_id : pystr)
| ValueError
| ResponseError
| OtherException (tag : N).

(** [session_id[:8] + "..." if len(session_id) > 8 else session_id] *)
Definition redacted (session_id : pystr) : pystr :=
  if (8 <? length session_id)%nat then slice_to 8 session_id ++ str "..."
  else session_id.

(** [SessionLockError(session_id, timeout)]: the constructor stores the
    redacted id and the timeout (the message is built from these two). *)
Definition new_SessionLockError (session_id : pystr) (timeout : Q) : pyexc :=
  SessionLockError (redacted session_id) timeout.

(** [SessionNotFoundError(session_id)] *)
Definition new_SessionNotFoundError (session_id : pystr) : pyexc :=
  SessionNotFoundError (redacted session_id).



End Exceptions.
Export Exceptions.

(** ** constants.py and config.py *)

Module Config.

Definition SESSION_PREFIX : pystr := str "PHPREDIS_SESSION:".
Definition LOCK_SUFFIX : pystr := str "_LOCK".
Definition DEFAULT_JSON_FIELDS : gset pystr :=
  {[ str "scart_items"; str "ga_data"; str "session_view_log"; str "MPIReceive" ]}.
Definition DEFAULT_SESSION_EXPIRE : Z := 86400.
Definition DEFAULT_LOCK_TIMEOUT : Q := 30.
Definition LOCK_RETRY_INTERVAL : Q := 5 # 100.

Record SessionConfig : Type := {
  session_expire : Z;
  lock_timeout : Q;
  session_prefix : pystr;
  lock_suffix : pystr;
  json_fields : gset pystr;
  json_prefix : option pystr
}.

(** [SessionConfig()] with every default. *)
Definition default_config : SessionConfig := {|
  session_expire := DEFAULT_SESSION_EXPIRE;
  lock_timeout := DEFAULT_LOCK_TIMEOUT;
  session_prefix := SESSION_PREFIX;
  lock_suffix := LOCK_SUFFIX;
  json_fields := DEFAULT_JSON_FIELDS;
  json_prefix := Some (str "trace_list_")
|}.

(** [__post_init__]: the [ValueError] it raises, if any. *)
Definition post_init (c : SessionConfig) : option pyexc :=
  if (session_expire c <=? 0)%Z then Some ValueError
  else if Qle_bool (lock_timeout c) 0 then Some ValueError
  else match session_prefix c with
       | [] => Some ValueError
       | _ :: _ => None
       end.

End Config.
Export Config.

(** ** The Redis server and the event loop's clock *)

Module Redis.

(** A stored value with the instant at which it expires, if it does. *)
Record entry : Type := {
  e_value : pybytes;
  e_expires : option Q
}.

(** The commands a client issues, as the client object receives them. *)
Inductive redis_call : Type :=
| Call_set (key : pystr) (value : pybytes) (nx : bool) (px ex : option Z)
| Call_get (key : pystr)
| Call_delete (key : pystr)
| Call_exists (key : pystr)
| Call_script (keys : list pystr) (args : list pybytes).

(** The server's keys, the clock (seconds), and the commands issued so far,
    oldest first. *)
Record world : Type := {
  server : gmap pystr entry;
  clock : Q;
  calls : list redis_call
}.

Definition live (t : Q) (e : entry) : bool :=
  match e_expires e with
  | None => true
  | Some deadline => if Qlt_le_dec t deadline then true else false
  end.

(** What the server holds under [key] at this instant. *)
Definition stored (w : world) (key : pystr) : option pybytes :=
  match server w !! key with
  | Some e => if live (clock w) e then Some (e_value e) else None
  | None => None
  end.

Definition logged (c : redis_call) (w : world) : world :=
  {| server := server w; clock := clock w; calls := calls w ++ [c] |}.

Definition with_server (m : gmap pystr entry) (w : world) : world :=
  {| server := m; clock := clock w; calls := calls w |}.

(** [await asyncio.sleep(d)] *)
Definition sleep (d : Q) (w : world) : world :=
  {| server := server w; clock := (clock w + d)%Q; calls := calls w |}.

(** [loop.time()] *)
Definition loop_time (w : world) : Q := clock w.

Definition positive_expiry (t : option Z) : bool :=
  match t with
  | Some n => (0 <? n)%Z
  | None => true
  end.

(** The expiry instant a [SET] with these options gives the key. *)
Definition deadline (w : world) (px ex : option Z) : option Q :=
  match px, ex with
  | Some ms, _ => Some (clock w + inject_Z ms / 1000)%Q
  | None, Some s => Some (clock w + inject_Z s)%Q
  | None, None => None
  end.

(** [await redis.set(key, value, nx=..., px=..., ex=...)]: the server refuses
    an expiry that is not positive; with [nx] it writes only when the key is
    absent, and the reply is true exactly when it wrote. *)
Definition redis_set (w : world) (key : pystr) (value : pybytes) (nx : bool)
           (px ex : option Z) : world * (pyexc + bool) :=
  let w := logged (Call_set key value nx px ex) w in
  if negb (positive_expiry px && positive_expiry ex) then (w, inl ResponseError)
  else if nx && bool_decide (is_Some (stored w key)) then (w, inr false)
  else (with_server (<[key := {| e_value := value; e_expires := deadline w px ex |}]> (server w)) w,
        inr true).

(** [await redis.get(key)] *)
Definition redis_get (w : world) (key : pystr) : world * option pybytes :=
  let w := logged (Call_get key) w in (w, stored w key).

(** [await redis.delete(key)]: the number of keys removed. *)
Definition redis_delete (w : world) (key : pystr) : world * Z :=
  let w := logged (Call_delete key) w in
  match stored w key with
  | Some _ => (with_server (delete key (server w)) w, 1%Z)
  | None => (w, 0%Z)
  end.

(** [await redis.exists(key)]: the number of keys that exist. *)
Definition redis_exists (w : world) (key : pystr) : world * Z :=
  let w := logged (Call_exists key) w in
  (w, if bool_decide (is_Some (stored w key)) then 1%Z else 0%Z).

(** The body of [RELEASE_LOCK_SCRIPT], run by the server in one piece:
    [if redis.call("get", KEYS[1]) == ARGV[1] then return
    redis.call("del", KEYS[1]) else return 0 end]. *)
Definition RELEASE_LOCK_SCRIPT (w : world) (key : pystr) (arg : pybytes)
  : gmap pystr entry * Z :=
  if bool_decide (stored w key = Some arg) then (delete key (server w), 1%Z)
  else (server w, 0%Z).

(** [await script(keys=[key], args=[arg])] for the registered release
    script. *)
Definition release_lock_script (w : world) (key : pystr) (arg : pybytes) : world * Z :=
  let w := logged (Call_script [key] [arg]) w in
  let '(m, reply) := RELEASE_LOCK_SCRIPT w key arg in
  (with_server m w, reply).

(** UTF-8, by which the client encodes a [str] argument. *)
Definition encode_char (c : N) : pybytes :=
  if c <? 128 then [c]
  else if c <? 2048 then [192 + c / 64; 128 + c mod 64]
  else if c <? 65536 then [224 + c / 4096; 128 + (c / 64) mod 64; 128 + c mod 64]
  else [240 + c / 262144; 128 + (c / 4096) mod 64; 128 + (c / 64) mod 64; 128 + c mod 64].

Definition encode_utf8 (s : pystr) : pybytes := flat_map encode_char s.

End Redis.
Export Redis.

(** ** context.py *)

Module ContextVar.

(** The context variable [_current_session_id] holds [None] by default;
    [contextvar] below is its value in the current context. *)
Definition get_current_session_id (contextvar : option pystr) : option pystr := contextvar.

Definition set_current_session_id (session_id : option pystr) : option pystr := session_id.

End ContextVar.
Export ContextVar.

(** ** manager.py

    The manager's optional logger only receives messages; it is left out. *)

Module Manager.

(** How a call ends. *)
Inductive outcome (A : Type) : Type :=
| Returned (a : A)
| Raised (e : pyexc).
Arguments Returned {A} a.
Arguments Raised {A} e.

(** How the acquisition loop ends. *)
Inductive acquisition : Type :=
| Acquired
| GaveUp
| AcquireRaised (e : pyexc).

(** [int(x)] for a duration: truncation towards zero. *)
Definition py_int (x : Q) : Z :=
  if Qle_bool 0 x then Qfloor x else Qceiling x.

(** [if raw:] for [bytes | None] *)
Definition truthy_bytes (raw : option pybytes) : bool :=
  match raw with
  | Some (_ :: _) => true
  | _ => false
  end.

Section WithCodec.

(** [phpserialize.loads(raw, decode_strings=True, object_hook=...)], typed
    as the code annotates its result; [None] when it raises [ValueError]. *)
Variable loads : pybytes -> option record.

(** [phpserialize.dumps(data)] *)
Variable dumps : record -> pybytes.

(** [json.loads] *)
Variable json_loads : pystr -> option pyvalue.

(** The manager's configuration, [self._config]. *)
Variable config : SessionConfig.

(** The value of the context variable in the caller's context. *)
Variable contextvar : option pystr.

Definition _resolve_session_id (session_id : option pystr) : pyexc + pystr :=
  match session_id with
  | Some given => inr given
  | None =>
      match get_current_session_id contextvar with
      | None => inl SessionContextError
      | Some ctx_session_id => inr ctx_session_id
      end
  end.

Definition _session_key (session_id : pystr) : pystr :=
  session_prefix config ++ session_id.

Definition _lock_key (session_id : pystr) : pystr :=
  _session_key session_id ++ lock_suffix config.

Definition _decode_session (raw : pybytes) : pyexc + record :=
  match loads raw with
  | None => inl ValueError
  | Some data =>
      inr (decode_json_fields json_loads data (Some (json_fields config)) (json_prefix config))
  end.

(** The [px] argument of the acquiring [SET]. *)
Definition lock_px : Z := py_int (lock_timeout config * 1000).

(** The conditional write the loop issues, as the client receives it. *)
Definition attempt (lock_key token : pystr) : redis_call :=
  Call_set lock_key (encode_utf8 token) true (Some lock_px) None.

(** The loop [while loop.time() - start < lock_timeout: ...]; [fuel] bounds
    the number of turns, and [None] means the bound was too small. *)
Fixpoint acquire (fuel : nat) (lock_key : pystr) (token : pystr) (start : Q)
         (w : world) : option (world * acquisition) :=
  match fuel with
  | O => None
  | S fuel' =>
      if Qlt_le_dec (loop_time w - start) (lock_timeout config) then
        match redis_set w lock_key (encode_utf8 token) true (Some lock_px) None with
        | (w1, inl e) => Some (w1, AcquireRaised e)
        | (w1, inr true) => Some (w1, Acquired)
        | (w1, inr false) => acquire fuel' lock_key token start (sleep LOCK_RETRY_INTERVAL w1)
        end
      else Some (w, GaveUp)
  end.

(** Turns that always suffice: one per retry interval that fits into the
    timeout, and the turn that finds the time over. *)
Definition acquire_fuel : nat :=
  S (Z.to_nat (Qceiling (lock_timeout config / LOCK_RETRY_INTERVAL))).

(** The caller's block under [async with manager.lock(...) as session]: it
    receives the mapping, may change it, may use the server and let time
    pass, and either falls through or raises. *)
Definition caller_block : Type := world -> record -> world * record * option pyexc.

(** The part of [lock] before its [yield]: resolve the id, acquire the lock,
    load the session. It ends by yielding the mapping (here with the
    resolved id) or by raising. [token] is the value
    [secrets.token_hex(16)] draws. *)
Definition lock_enter (session_id : option pystr) (token : pystr) (w : world)
  : option (world * outcome (pystr * record)) :=
  match _resolve_session_id session_id with
  | inl e => Some (w, Raised e)
  | inr resolved_id =>
      let lock_key := _lock_key resolved_id in
      let start := loop_time w in
      match acquire acquire_fuel lock_key token start w with
      | None => None
      | Some (w1, AcquireRaised e) => Some (w1, Raised e)
      | Some (w1, GaveUp) =>
          Some (w1, Raised (new_SessionLockError resolved_id (lock_timeout config)))
      | Some (w1, Acquired) =>
          let '(w2, raw) := redis_get w1 (_session_key resolved_id) in
          let loaded :=
            if truthy_bytes raw then
              match raw with
              | Some blob => _decode_session blob
              | None => inr []
              end
            else inr [] in
          match loaded with
          | inl e => (Some (w2, Raised e))
          | inr session_data => Some (w2, Returned (resolved_id, session_data))
          end
      end
  end.

(** The [finally] part of [lock]: save the mapping, then release the lock.
    An error of the save leaves the [finally] block at once. *)
Definition lock_exit (resolved_id : pystr) (token : pystr) (session_data : record)
           (w : world) : world * outcome unit :=
  match redis_set w (_session_key resolved_id) (dumps session_data)
                  false None (Some (session_expire config)) with
  | (w1, inl e) => (w1, Raised e)
  | (w1, inr _) =>
      let '(w2, _) := release_lock_script w1 (_lock_key resolved_id) (encode_utf8 token) in
      (w2, Returned tt)
  end.

(** [async with self.lock(session_id) as session: block]: the world
    afterwards and how the statement ends. An exception of the block passes
    through the [finally] part and is raised again, unless that part raises
    itself. *)
Definition lock (session_id : option pystr) (token : pystr) (block : caller_block)
           (w : world) : option (world * outcome unit) :=
  match lock_enter session_id token w with
  | None => None
  | Some (w2, Raised e) => Some (w2, Raised e)
  | Some (w2, Returned (resolved_id, session_data)) =>
      let '(w3, session_data, raised) := block w2 session_data in
      match lock_exit resolved_id token session_data w3 with
      | (w5, Raised e) => Some (w5, Raised e)
      | (w5, Returned _) =>
          Some (w5, match raised with
                    | Some e => Raised e
                    | None => Returned tt
                    end)
      end
  end.

(** [await self.get(key, session_id)] *)
Definition get (key : option pystr) (session_id : option pystr) (w : world)
  : world * outcome pyvalue :=
  match _resolve_session_id session_id with
  | inl e => (w, Raised e)
  | inr resolved_id =>
      let '(w1, raw) := redis_get w (_session_key resolved_id) in
      match raw with
      | None => (w1, Returned PNone)
      | Some blob =>
          match _decode_session blob with
          | inl e => (w1, Raised e)
          | inr data =>
              match key with
              | None => (w1, Returned (as_value data))
              | Some k =>
                  (w1, Returned match dict_get data k with
                                | Some v => v
                                | None => PNone
                                end)
              end
          end
      end
  end.

(** [await self.set(key, value, session_id)] *)
Definition set (key : pystr) (value : pyvalue) (session_id : option pystr) (w : world)
  : world * outcome unit :=
  match _resolve_session_id session_id with
  | inl e => (w, Raised e)
  | inr resolved_id =>
      let '(w1, raw) := redis_get w (_session_key resolved_id) in
      let loaded :=
        if truthy_bytes raw then
          match raw with
          | Some blob => match loads blob with
                         | Some data => inr data
                         | None => inl ValueError
                         end
          | None => inr []
          end
        else inr [] in
      match loaded with
      | inl e => (w1, Raised e)
      | inr data =>
          let data := dict_setitem data key value in
          match redis_set w1 (_session_key resolved_id) (dumps data)
                          false None (Some (session_expire config)) with
          | (w2, inl e) => (w2, Raised e)
          | (w2, inr _) => (w2, Returned tt)
          end
      end
  end.

(** [await self.save(data, session_id)] *)
Definition save (data : record) (session_id : option pystr) (w : world)
  : world * outcome unit :=
  match _resolve_session_id session_id with
  | inl e => (w, Raised e)
  | inr resolved_id =>
      match redis_set w (_session_key resolved_id) (dumps data)
                      false None (Some (session_expire config)) with
      | (w1, inl e) => (w1, Raised e)
      | (w1, inr _) => (w1, Returned tt)
      end
  end.

(** [await self.delete(session_id)] *)
Definition delete (session_id : option pystr) (w : world) : world * outcome bool :=
  match _resolve_session_id session_id with
  | inl e => (w, Raised e)
  | inr resolved_id =>
      let '(w1, result) := redis_delete w (_session_key resolved_id) in
      (w1, Returned (0 <? result)%Z)
  end.

(** [await self.exists(session_id)] *)
Definition exists_ (session_id : option pystr) (w : world) : world * outcome bool :=
  match _resolve_session_id session_id with
  | inl e => (w, Raised e)
  | inr resolved_id =>
      let '(w1, result) := redis_exists w (_session_key resolved_id) in
      (w1, Returned (0 <? result)%Z)
  end.

End WithCodec.

End Manager.

(** ** A reference codec for the PHP serialization format

    [phpserialize] is a third-party library, so the manager takes its
    [loads] and [dumps] as parameters. This codec instantiates them on
    concrete inputs. [dumps] writes [N;], [b:], [i:], [d:], [s:] and [a:]
    items as the library does (a list becomes an array keyed 0, 1, ...);
    [loads] reads them back with strings decoded from UTF-8 and every array
    turned into a [dict], and accepts at the top level a [dict] with string
    keys, the type the manager annotates. Serialized objects and keys that
    are neither integers nor strings are outside it and are rejected. *)

Module PhpRef.

Fixpoint uint_digits (u : Decimal.uint) : pybytes :=
  match u with
  | Decimal.Nil => []
  | Decimal.D0 u => 48 :: uint_digits u
  | Decimal.D1 u => 49 :: uint_digits u
  | Decimal.D2 u => 50 :: uint_digits u
  | Decimal.D3 u => 51 :: uint_digits u
  | Decimal.D4 u => 52 :: uint_digits u
  | Decimal.D5 u => 53 :: uint_digits u
  | Decimal.D6 u => 54 :: uint_digits u
  | Decimal.D7 u => 55 :: uint_digits u
  | Decimal.D8 u => 56 :: uint_digits u
  | Decimal.D9 u => 57 :: uint_digits u
  end.

Definition decimal_N (n : N) : pybytes := uint_digits (N.to_uint n).

Definition decimal_Z (z : Z) : pybytes :=
  match z with
  | Zneg p => 45 :: decimal_N (Npos p)
  | _ => decimal_N (Z.to_N z)
  end.

Definition serialize_str (s : pystr) : pybytes :=
  let encoded := encode_utf8 s in
  str "s:" ++ decimal_N (N.of_nat (length encoded)) ++ [58; 34] ++ encoded ++ [34; 59].

Definition serialize_key (k : pykey) : pybytes :=
  match k with
  | KInt z => str "i:" ++ decimal_Z z ++ [59]
  | KStr s => serialize_str s
  end.

Fixpoint serialize (v : pyvalue) : pybytes :=
  match v with
  | PNone => str "N;"
  | PBool b => if b then str "b:1;" else str "b:0;"
  | PInt z => str "i:" ++ decimal_Z z ++ [59]
  | PFloat repr => str "d:" ++ encode_utf8 repr ++ [59]
  | PStr s => serialize_str s
  | PList l =>
      str "a:" ++ decimal_N (N.of_nat (length l)) ++ str ":{"
      ++ (fix items (i : Z) (l : list pyvalue) : pybytes :=
            match l with
            | [] => []
            | x :: l' => serialize_key (KInt i) ++ serialize x ++ items (i + 1)%Z l'
            end) 0%Z l
      ++ str "}"
  | PDict d =>
      str "a:" ++ decimal_N (N.of_nat (length d)) ++ str ":{"
      ++ (fix items (d : list (pykey * pyvalue)) : pybytes :=
            match d with
            | [] => []
            | (k, x) :: d' => serialize_key k ++ serialize x ++ items d'
            end) d
      ++ str "}"
  end.

(** [phpserialize.dumps(data)] for a session mapping. *)
Definition dumps (data : record) : pybytes := serialize (as_value data).

Definition continuation (c : N) : bool := (128 <=? c) && (c <=? 191).

(** Strict UTF-8 decoding; [None] where Python raises. *)
Fixpoint decode_utf8 (b : pybytes) : option pystr :=
  match b with
  | [] => Some []
  | c :: r =>
      if c <? 128 then option_map (cons c) (decode_utf8 r)
      else if (192 <=? c) && (c <? 224) then
        match r with
        | c1 :: r' =>
            let cp := (c - 192) * 64 + (c1 - 128) in
            if continuation c1 && (128 <=? cp) then option_map (cons cp) (decode_utf8 r')
            else None
        | _ => None
        end
      else if (224 <=? c) && (c <? 240) then
        match r with
        | c1 :: c2 :: r' =>
            let cp := (c - 224) * 4096 + (c1 - 128) * 64 + (c2 - 128) in
            if continuation c1 && continuation c2 && (2048 <=? cp)
               && negb ((55296 <=? cp) && (cp <=? 57343))
            then option_map (cons cp) (decode_utf8 r')
            else None
        | _ => None
        end
      else if (240 <=? c) && (c <? 248) then
        match r with
        | c1 :: c2 :: c3 :: r' =>
            let cp := (c - 240) * 262144 + (c1 - 128) * 4096 + (c2 - 128) * 64 + (c3 - 128) in
            if continuation c1 && continuation c2 && continuation c3
               && (65536 <=? cp) && (cp <=? 1114111)
            then option_map (cons cp) (decode_utf8 r')
            else None
        | _ => None
        end
      else None
  end.

(** The bytes before the first [delim], and the bytes after it. *)
Fixpoint read_until (delim : N) (b : pybytes) : option (pybytes * pybytes) :=
  match b with
  | [] => None
  | c :: r =>
      if c =? delim then Some ([], r)
      else match read_until delim r with
           | Some (data, rest) => Some (c :: data, rest)
           | None => None
           end
  end.

Definition expect1 (c : N) (b : pybytes) : option pybytes :=
  match b with
  | c' :: r => if c' =? c then Some r else None
  | [] => None
  end.

Fixpoint digits_value (acc : N) (b : pybytes) : option N :=
  match b with
  | [] => Some acc
  | c :: r => if (48 <=? c) && (c <=? 57) then digits_value (10 * acc + (c - 48)) r else None
  end.

(** [int(data)] for an optional minus sign and decimal digits. *)
Definition parse_int (data : pybytes) : option Z :=
  match data with
  | [] => None
  | [45] => None
  | 45 :: r => option_map (fun n => (- Z.of_N n)%Z) (digits_value 0 r)
  | _ => option_map Z.of_N (digits_value 0 data)
  end.

Definition lower (c : N) : N := if (65 <=? c) && (c <=? 90) then c + 32 else c.

Definition as_key (v : pyvalue) : option pykey :=
  match v with
  | PInt z => Some (KInt z)
  | PStr s => Some (KStr s)
  | _ => None
  end.

(** [d[k] = v] while [dict(pairs)] is built. *)
Fixpoint pairs_set (d : list (pykey * pyvalue)) (k : pykey) (v : pyvalue)
  : list (pykey * pyvalue) :=
  match d with
  | [] => [(k, v)]
  | (k', v') :: d' =>
      if match k', k with
         | KInt a, KInt b => (a =? b)%Z
         | KStr a, KStr b => bool_decide (a = b)
         | _, _ => false
         end
      then (k, v) :: d' else (k', v') :: pairs_set d' k v
  end.

(** One item at the front of [b]; [fuel] bounds the nesting depth. *)
Fixpoint unserialize (fuel : nat) (b : pybytes) : option (pyvalue * pybytes) :=
  match fuel with
  | O => None
  | S fuel' =>
      match b with
      | [] => None
      | t :: r =>
          let t := lower t in
          if t =? 110 then option_map (pair PNone) (expect1 59 r)
          else if (t =? 105) || (t =? 100) || (t =? 98) then
            match expect1 58 r with
            | Some r1 =>
                match read_until 59 r1 with
                | Some (data, rest) =>
                    if t =? 105 then option_map (fun z => (PInt z, rest)) (parse_int data)
                    else if t =? 100 then option_map (fun s => (PFloat s, rest)) (decode_utf8 data)
                    else option_map (fun z => (PBool (negb (z =? 0)%Z), rest)) (parse_int data)
                | None => None
                end
            | None => None
            end
          else if t =? 115 then
            match expect1 58 r with
            | Some r1 =>
                match read_until 58 r1 with
                | Some (len, r2) =>
                    match parse_int len, expect1 34 r2 with
                    | Some n, Some r3 =>
                        let n := Z.to_nat n in
                        if (length r3 <? n)%nat then None
                        else
                          match decode_utf8 (firstn n r3), expect1 34 (skipn n r3) with
                          | Some text, Some r4 => option_map (pair (PStr text)) (expect1 59 r4)
                          | _, _ => None
                          end
                    | _, _ => None
                    end
                | None => None
                end
            | None => None
            end
          else if t =? 97 then
            match expect1 58 r with
            | Some r1 =>
                match read_until 58 r1 with
                | Some (len, r2) =>
                    match parse_int len, expect1 123 r2 with
                    | Some n, Some r3 =>
                        (fix items (n : nat) (acc : list (pykey * pyvalue)) (b : pybytes)
                           {struct n} : option (pyvalue * pybytes) :=
                           match n with
                           | O => option_map (pair (PDict acc)) (expect1 125 b)
                           | S n' =>
                               match unserialize fuel' b with
                               | Some (k, b1) =>
                                   match as_key k, unserialize fuel' b1 with
                                   | Some k, Some (v, b2) => items n' (pairs_set acc k v) b2
                                   | _, _ => None
                                   end
                               | None => None
                               end
                           end) (Z.to_nat n) [] r3
                    | _, _ => None
                    end
                | None => None
                end
            | None => None
            end
          else None
      end
  end.

(** The string-keyed entries of a [dict], if all its keys are strings. *)
Fixpoint string_keyed (d : list (pykey * pyvalue)) : option record :=
  match d with
  | [] => Some []
  | (KStr k, v) :: d' => option_map (cons (k, v)) (string_keyed d')
  | (KInt _, _) :: _ => None
  end.

(** [phpserialize.loads(raw, decode_strings=True, ...)] for a session
    mapping; what follows the first item is not read. *)
Definition loads (raw : pybytes) : option record :=
  match unserialize (S (length raw)) raw with
  | Some (PDict d, _) => string_keyed d
  | _ => None
  end.

End PhpRef.

(** ** Concrete data for the examples *)

Module Samples.

(** The 32-character session id of the specification. *)
Definition sample_id : pystr := str "a1b2c3d4e5f6g7h8i9j0k1l2m3n4o5p6".

(** Two tokens as [secrets.token_hex(16)] returns them. *)
Definition token_a : pystr := str "00112233445566778899aabbccddeeff".
Definition token_b : pystr := str "ffeeddccbbaa99887766554433221100".

(** A server without keys, at time zero, before any command. *)
Definition fresh_world : world := {| server := ∅; clock := 0; calls := [] |}.

(** The default key names for [sample_id]. *)
Definition sample_session_key : pystr := SESSION_PREFIX ++ sample_id.
Definition sample_lock_key : pystr := SESSION_PREFIX ++ sample_id ++ LOCK_SUFFIX.

(** A server on which another holder's lock on [sample_id] runs for a
    minute. *)
Definition locked_world : world :=
  {| server := {[ sample_lock_key := {| e_value := encode_utf8 token_b; e_expires := Some 60%Q |} ]};
     clock := 0; calls := [] |}.

(** A caller's block that sets [cart_count] to 5 and then raises. *)
Definition raising_block : Manager.caller_block :=
  fun w session => (w, dict_setitem session (str "cart_count") (PInt 5), Some (OtherException 1)).

End Samples.
Export Samples.

(** ** Session-id resolution as the specification words it *)

Module ResolutionSpec.


End ResolutionSpec.
Export ResolutionSpec.

(** ** Concurrent callers of [lock]

    Several coroutines run [lock] for one session id on one event loop and
    one server. A coroutine runs without interruption from one [await] to
    the next, so a caller is at one of the stages below, and a run is an
    interleaving of the callers' steps with the passing of time. A caller's
    block changes the mapping and takes time, but does not use the server. *)

Module Concurrent.

(** Where a caller is in [lock]: before it; in the loop, about to try or
    asleep between two tries; holding the lock, about to load the session or
    in its block; after its block, about to save or to release; and at the
    end, released or failed. *)
Inductive stage : Type :=
| Idle
| Acquiring (start : Q)
| Sleeping (start wake : Q)
| Loading
| Held (session_data : record)
| Saving (session_data : record) (raised : option pyexc)
| Releasing (raised : option pyexc)
| Released (raised : option pyexc)
| Failed (e : pyexc).

(** From the successful conditional write to the release call. *)
Definition holding (st : stage) : bool :=
  match st with
  | Loading | Held _ | Saving _ _ | Releasing _ => true
  | _ => false
  end.



(** The world all callers share, and the stage of each. *)
Record system : Type := {
  shared : world;
  callers : list stage
}.


(** One step of a run: caller [i] runs up to its next [await], or time
    passes. *)
Inductive action : Type :=
| Run (i : nat)
| Tick (d : Q).

Section System.

Variable loads : pybytes -> option record.
Variable dumps : record -> pybytes.
Variable json_loads : pystr -> option pyvalue.
Variable config : SessionConfig.

(** The session id every caller passes. *)
Variable session_id : pystr.

(** The token each caller draws, and each caller's block. *)
Variable tokens : nat -> pystr.
Variable blocks : nat -> record -> record * option pyexc.

Definition the_lock_key : pystr := Manager._lock_key config session_id.
Definition the_session_key : pystr := Manager._session_key config session_id.

(** Caller [i] at stage [st] runs to its next [await]; [None] when it cannot
    run (it has finished, or its sleep is not over). *)
Definition caller_step (i : nat) (st : stage) (w : world) : option (stage * world) :=
  match st with
  | Idle => Some (Acquiring (loop_time w), w)
  | Acquiring start =>
      if Qlt_le_dec (loop_time w - start) (lock_timeout config) then
        match redis_set w the_lock_key (encode_utf8 (tokens i)) true
                        (Some (Manager.lock_px config)) None with
        | (w1, inl e) => Some (Failed e, w1)
        | (w1, inr true) => Some (Loading, w1)
        | (w1, inr false) => Some (Sleeping start (clock w1 + LOCK_RETRY_INTERVAL)%Q, w1)
        end
      else Some (Failed (new_SessionLockError session_id (lock_timeout config)), w)
  | Sleeping start wake =>
      if Qle_bool wake (clock w) then Some (Acquiring start, w) else None
  | Loading =>
      let '(w1, raw) := redis_get w the_session_key in
      let loaded :=
        if Manager.truthy_bytes raw then
          match raw with
          | Some blob => Manager._decode_session loads json_loads config blob
          | None => inr []
          end
        else inr [] in
      match loaded with
      | inl e => Some (Failed e, w1)
      | inr session_data => Some (Held session_data, w1)
      end
  | Held session_data =>
      let '(session_data, raised) := blocks i session_data in
      Some (Saving session_data raised, w)
  | Saving session_data raised =>
      match redis_set w the_session_key (dumps session_data) false None
                      (Some (session_expire config)) with
      | (w1, inl e) => Some (Failed e, w1)
      | (w1, inr _) => Some (Releasing raised, w1)
      end
  | Releasing raised =>
      let '(w1, _) := release_lock_script w the_lock_key (encode_utf8 (tokens i)) in
      Some (Released raised, w1)
  | Released _ => None
  | Failed _ => None
  end.

(** Letting [d] seconds pass would let the lock key expire, or otherwise
    change what it holds, while a caller is between its conditional write
    and its release. *)
Definition lapses (d : Q) (s : system) : bool :=
  existsb holding (callers s)
  && negb (bool_decide (stored (sleep d (shared s)) the_lock_key
                        = stored (shared s) the_lock_key)).

(** One step of the system. With [allow_lapse] false, time may not pass
    beyond the expiry of a lock that is being held. *)
Definition step (allow_lapse : bool) (a : action) (s : system) : option system :=
  match a with
  | Run i =>
      match callers s !! i with
      | Some st =>
          match caller_step i st (shared s) with
          | Some (st', w') => Some {| shared := w'; callers := <[i := st']> (callers s) |}
          | None => None
          end
      | None => None
      end
  | Tick d =>
      if Qlt_le_dec 0 d then
        if allow_lapse || negb (lapses d s)
        then Some {| shared := sleep d (shared s); callers := callers s |}
        else None
      else None
  end.

(** A run: the steps of a schedule, in order. *)
Fixpoint run (allow_lapse : bool) (schedule : list action) (s : system) : option system :=
  match schedule with
  | [] => Some s
  | a :: rest =>
      match step allow_lapse a s with
      | Some s' => run allow_lapse rest s'
      | None => None
      end
  end.

(** [n] callers about to enter [lock]. *)
Definition start_of (n : nat) (w : world) : system :=
  {| shared := w; callers := replicate n Idle |}.





End System.

End Concurrent.

(** ** Two callers, for the examples *)

Module TwoCallers.

Import Concurrent.

Definition two_tokens (i : nat) : pystr :=
  match i with
  | O => token_a
  | S _ => token_b
  end.

(** Caller 0 counts its visits; caller 1 changes nothing. *)
Definition two_blocks (i : nat) (session : record) : record * option pyexc :=
  match i with
  | O => (dict_setitem session (str "visits") (PInt 1), None)
  | S _ => (session, None)
  end.

Definition two_step := step PhpRef.loads PhpRef.dumps JsonRef.json_loads default_config
                            sample_id two_tokens two_blocks.

Definition two_run := run PhpRef.loads PhpRef.dumps JsonRef.json_loads default_config
                          sample_id two_tokens two_blocks.




End TwoCallers.

(** ** contrib/starlette.py *)

Module Starlette.

(** What the middleware uses of a request: its cookies, and the attribute
    [session_id] of its [state], absent until it is assigned. *)
Record request : Type := {
  cookies : gmap pystr pystr;
  state_session_id : option pystr
}.

(** [if phpsessid:] for [str | None] *)
Definition truthy_str (s : option pystr) : bool :=
  match s with
  | Some (_ :: _) => true
  | _ => false
  end.

Section WithResponse.

(** The type of responses. *)
Variable response : Type.

(** [call_next]: the rest of the application. It receives the request, runs
    in the caller's context, whose variable it may read and set, and returns
    a response or raises. *)
Definition call_next_t : Type :=
  request -> option pystr -> option pystr * Manager.outcome response.

(** [await self.dispatch(request, call_next)] for a middleware with the given
    cookie name, run where the context variable holds [contextvar]: the value
    of the context variable afterwards, and how the call ends. The logger
    only receives messages and is left out. *)
Definition dispatch (cookie_name : pystr) (req : request) (call_next : call_next_t)
           (contextvar : option pystr) : option pystr * Manager.outcome response :=
  let raw_phpsessid := cookies req !! cookie_name in
  let phpsessid := sanitize_phpsessid raw_phpsessid in
  let '(req, contextvar) :=
    if truthy_str phpsessid
    then ({| cookies := cookies req; state_session_id := phpsessid |},
          set_current_session_id phpsessid)
    else (req, contextvar) in
  let '(_, result) := call_next req contextvar in
  (set_current_session_id None, result).

End WithResponse.

End Starlette.

(** ** More concrete data for the examples *)

Module MoreSamples.

(** A session with an integer and a known JSON field. *)
Definition cart_session : record :=
  [(str "user_id", PInt 123); (str "scart_items", PStr json_array_a_b)].

(** The same after the JSON sub-field pass. *)
Definition cart_session_decoded : record :=
  [(str "user_id", PInt 123); (str "scart_items", PList [PStr (str "a"); PStr (str "b")])].

(** A server that holds [cart_session] under the sample id, without
    expiry. *)
Definition cart_world : world :=
  {| server := {[ sample_session_key := {| e_value := PhpRef.dumps cart_session;
                                          e_expires := None |} ]};
     clock := 0; calls := [] |}.

(** A server that holds bytes under the sample id that are no serialized
    session. *)
Definition broken_world : world :=
  {| server := {[ sample_session_key := {| e_value := str "garbage"; e_expires := None |} ]};
     clock := 0; calls := [] |}.

End MoreSamples.
Export MoreSamples.

(** ** [set] in its two halves

    [set] awaits the server twice, once to read and once to write; another
    coroutine may run in between. The two halves are given here on their
    own. *)

Module SetSteps.

Section WithCodec.

Variable loads : pybytes -> option record.
Variable dumps : record -> pybytes.
Variable config : SessionConfig.
Variable contextvar : option pystr.

(** [set] up to the end of its read: the resolved id and the mapping read. *)
Definition set_read (session_id : option pystr) (w : world)
  : world * Manager.outcome (pystr * record) :=
  match Manager._resolve_session_id contextvar session_id with
  | inl e => (w, Manager.Raised e)
  | inr resolved_id =>
      let '(w1, raw) := redis_get w (Manager._session_key config resolved_id) in
      let loaded :=
        if Manager.truthy_bytes raw then
          match raw with
          | Some blob => match loads blob with
                         | Some data => inr data
                         | None => inl ValueError
                         end
          | None => inr []
          end
        else inr [] in
      match loaded with
      | inl e => (w1, Manager.Raised e)
      | inr data => (w1, Manager.Returned (resolved_id, data))
      end
  end.

(** [set] from the assignment on: update the mapping read, and write it. *)
Definition set_write (resolved_id : pystr) (data : record) (key : pystr) (value : pyvalue)
           (w : world) : world * Manager.outcome unit :=
  let data := dict_setitem data key value in
  match redis_set w (Manager._session_key config resolved_id) (dumps data)
                  false None (Some (session_expire config)) with
  | (w2, inl e) => (w2, Manager.Raised e)
  | (w2, inr _) => (w2, Manager.Returned tt)
  end.

End WithCodec.

End SetSteps.

(** * Properties *)

(** ** The sanitizer *)

Module SanitizeFacts.

Lemma alnum_class_ascii c : alnum_class c = is_ascii_alnum c.
Proof.
  unfold alnum_class, is_ascii_alnum.
  destruct ((97 <=? c) && (c <=? 122)), ((65 <=? c) && (c <=? 90)),
    ((48 <=? c) && (c <=? 57)); reflexivity.
Qed.

Lemma forallb_alnum s : forallb alnum_class s = forallb is_ascii_alnum s.
Proof.
  induction s as [| c s IH]; simpl; [reflexivity | ].
  now rewrite alnum_class_ascii, IH.
Qed.

Lemma alnum_not_nul c : alnum_class c = true -> (0 =? c) = false.
Proof.
  unfold alnum_class. intros H.
  rewrite !orb_true_iff, !andb_true_iff, !N.leb_le in H.
  apply N.eqb_neq. lia.
Qed.

(** What the bounded repetition accepts: a prefix of class characters whose
    length lies within the bounds, followed by something the continuation
    accepts. *)
Lemma repeat_class_true cls k hi : forall lo s,
  repeat_class cls lo hi k s = true <->
  exists pre rest, s = pre ++ rest /\ forallb cls pre = true
                   /\ (lo <= length pre <= hi)%nat /\ k rest = true.
Proof.
  induction hi as [| hi IH]; intros lo s; simpl.
  - split.
    + destruct lo; [ | discriminate]. intros H. exists [], s. simpl. repeat split; auto.
    + intros (pre & rest & -> & _ & [Hlo Hhi] & Hk).
      destruct pre; simpl in *; [ | lia]. destruct lo; [assumption | lia].
  - rewrite orb_true_iff. split.
    + intros [H | H].
      * destruct s as [| c s']; [discriminate | ].
        apply andb_true_iff in H as [Hc H]. apply IH in H as (pre & rest & -> & Hp & Hl & Hk).
        exists (c :: pre), rest. simpl. rewrite Hc, Hp. repeat split; auto; lia.
      * destruct lo; [ | discriminate]. exists [], s. simpl. repeat split; auto; lia.
    + intros (pre & rest & -> & Hp & [Hlo Hhi] & Hk).
      destruct pre as [| c pre]; simpl in *.
      * right. destruct lo; [assumption | lia].
      * left. apply andb_true_iff in Hp as [Hc Hp]. rewrite Hc. simpl.
        apply IH. exists pre, rest. repeat split; auto; lia.
Qed.

Lemma at_end_cases rest : at_end rest = true -> rest = [] \/ rest = [10].
Proof.
  destruct rest as [| a r]; [now left | ]. right.
  destruct (N.eq_dec a 10) as [-> | Hne].
  - destruct r; [reflexivity | discriminate].
  - exfalso. unfold at_end in H.
    destruct a as [| [[[[| |] | [| |] |] | [[| |] | [| |] |] |] | [[[| |] | [| |] |] | [[| |] | [| |] |] |] |]];
      try discriminate; congruence.
Qed.

Lemma lstrip_head s c t : lstrip s = c :: t -> isspace c = false.
Proof.
  induction s as [| a s IH]; simpl; [discriminate | ].
  destruct (isspace a) eqn:Ha; [exact IH | ]. intros [= <- <-]. exact Ha.
Qed.

(** A stripped string never ends in whitespace. *)
Lemma strip_last s pre c : strip s = pre ++ [c] -> isspace c = false.
Proof.
  unfold strip, rstrip. intros H.
  apply (f_equal (@rev N)) in H. rewrite rev_involutive, rev_app_distr in H. simpl in H.
  exact (lstrip_head _ _ _ H).
Qed.

(** On a stripped string the pattern, whose [$] would also accept one final
    newline, accepts exactly the strings of 26 to 128 ASCII letters and
    digits. *)
Lemma pattern_on_stripped s :
  PHPSESSID_PATTERN_match (strip s) = exactly_alnum_26_128 (strip s).
Proof.
  apply eq_true_iff_eq. unfold PHPSESSID_PATTERN_match, exactly_alnum_26_128.
  rewrite repeat_class_true. rewrite !andb_true_iff, !Nat.leb_le. split.
  - intros (pre & rest & Hs & Hp & Hl & Hk).
    assert (rest = []) as ->.
    { apply at_end_cases in Hk as [Hk | Hk]; [exact Hk | subst rest].
      apply strip_last in Hs. discriminate. }
    rewrite app_nil_r in Hs. rewrite Hs. repeat split; try lia.
    rewrite <- forallb_alnum. exact Hp.
  - intros [[Hp Hlo] Hhi]. exists (strip s), []. rewrite app_nil_r. repeat split; auto.
    rewrite forallb_alnum. exact Hp.
Qed.

Lemma alnum_no_nul s : forallb is_ascii_alnum s = true -> contains 0 s = false.
Proof.
  induction s as [| c s IH]; [reflexivity | ].
  cbn [forallb]. rewrite andb_true_iff. intros [Hc Hs].
  rewrite <- alnum_class_ascii in Hc.
  change (contains 0 (c :: s)) with ((0 =? c) || contains 0 s).
  now rewrite (alnum_not_nul _ Hc), (IH Hs).
Qed.

End SanitizeFacts.

(** C5. For every candidate string, [sanitize_phpsessid] returns the
    candidate trimmed of surrounding whitespace when the trimmed candidate
    consists of 26 to 128 ASCII letters and digits and nothing else, and
    returns [None] for every other candidate (empty, too short, too long, or
    holding any other character, control and null characters and non-ASCII
    ones included). An absent candidate gives [None] as well. *)
Theorem sanitize_phpsessid_exact :
  sanitize_phpsessid None = None /\
  forall s : pystr,
    sanitize_phpsessid (Some s) =
      if exactly_alnum_26_128 (strip s) then Some (strip s) else None.
Proof.
  split; [reflexivity | ]. intros s. unfold sanitize_phpsessid.
  destruct s as [| c s]; [reflexivity | ].
  cbv zeta. rewrite SanitizeFacts.pattern_on_stripped.
  destruct (exactly_alnum_26_128 (strip (c :: s))) eqn:E; simpl; [ | reflexivity].
  unfold exactly_alnum_26_128 in E. rewrite !andb_true_iff in E. destruct E as [[Hp _] _].
  rewrite (SanitizeFacts.alnum_no_nul _ Hp). reflexivity.
Qed.

(** ** The JSON sub-field pass *)

Module DecodeFacts.

Section WithJson.

Variable json_loads : pystr -> option pyvalue.

Lemma dict_setitem_middle (pre rest : record) k v v' :
  k ∉ dict_keys pre ->
  dict_setitem (pre ++ (k, v) :: rest) k v' = pre ++ (k, v') :: rest.
Proof.
  induction pre as [| [k0 v0] pre IH]; simpl; intros Hk.
  - now rewrite bool_decide_eq_true_2.
  - apply not_elem_of_cons in Hk as [Hne Hk].
    rewrite bool_decide_eq_false_2 by congruence. now rewrite IH.
Qed.

(** The code selects exactly the keys that are known fields or start with a
    prefix that is given and not empty. *)
Lemma should_decode_selected fs prefix key :
  should_decode fs prefix key = selected fs prefix key.
Proof.
  unfold should_decode, selected, in_known_fields. f_equal.
  - destruct fs as [fs | ]; [ | reflexivity].
    destruct (bool_decide (key ∈ fs)) eqn:E; [ | apply andb_false_r].
    apply bool_decide_eq_true_1 in E.
    rewrite bool_decide_eq_false_2; [reflexivity | set_solver].
  - destruct prefix as [[| c p] | ]; reflexivity.
Qed.

(** One turn of the loop rewrites the entry it visits and no other. *)
Lemma decode_item_middle fs prefix (pre rest : record) (entry : pystr * pyvalue) :
  fst entry ∉ dict_keys pre ->
  decode_item json_loads fs prefix (pre ++ entry :: rest) entry
  = pre ++ subfield json_loads (selected fs prefix) entry :: rest.
Proof.
  destruct entry as [k v]. simpl. intros Hk. unfold subfield. simpl.
  rewrite should_decode_selected.
  destruct v; try reflexivity.
  destruct (selected fs prefix k); [ | reflexivity].
  destruct (json_loads s); [ | reflexivity].
  now apply dict_setitem_middle.
Qed.

Lemma subfield_key sel entry : fst (subfield json_loads sel entry) = fst entry.
Proof.
  unfold subfield. destruct (snd entry); try reflexivity.
  destruct (sel (fst entry)); [ | reflexivity].
  now destruct (json_loads s).
Qed.

Lemma decode_loop fs prefix (items pre : record) :
  NoDup (dict_keys (pre ++ items)) ->
  fold_left (decode_item json_loads fs prefix) items (pre ++ items)
  = pre ++ map (subfield json_loads (selected fs prefix)) items.
Proof.
  revert pre. induction items as [| entry items IH]; intros pre Hnd; [reflexivity | ].
  cbn [fold_left map].
  unfold dict_keys in Hnd. rewrite map_app in Hnd. cbn [map] in Hnd.
  apply NoDup_app in Hnd as (Hpre & Hdisj & Hitems).
  apply NoDup_cons in Hitems as [Hfresh Hitems].
  rewrite decode_item_middle.
  2:{ intros Hin. apply (Hdisj _ Hin). left. }
  set (e' := subfield json_loads (selected fs prefix) entry).
  change (pre ++ e' :: items) with (pre ++ [e'] ++ items).
  rewrite app_assoc. rewrite IH.
  - now rewrite <- app_assoc.
  - unfold dict_keys. rewrite !map_app. cbn [map]. unfold e'. rewrite subfield_key.
    apply NoDup_app. split; [ | split]; [ | | exact Hitems].
    + apply NoDup_app. split; [exact Hpre | split; [ | apply NoDup_singleton]].
      intros x Hx Hx'. apply list_elem_of_singleton in Hx'. subst x.
      apply (Hdisj _ Hx). left.
    + intros x Hx Hx'. apply elem_of_app in Hx as [Hx | Hx].
      * apply (Hdisj _ Hx). now right.
      * apply list_elem_of_singleton in Hx. subst x. contradiction.
Qed.

(** The loop as one pass over the entries. *)
Lemma decode_json_fields_map fs prefix (data : record) :
  NoDup (dict_keys data) ->
  decode_json_fields json_loads data fs prefix
  = map (subfield json_loads (selected fs prefix)) data.
Proof.
  intros Hnd. unfold decode_json_fields, dict_items.
  exact (decode_loop fs prefix data [] Hnd).
Qed.

(** Where nothing is selected the loop leaves the mapping alone, whatever
    its keys. *)
Lemma decode_loop_unselected fs prefix (items acc : record) :
  (forall key, should_decode fs prefix key = false) ->
  fold_left (decode_item json_loads fs prefix) items acc = acc.
Proof.
  intros Hno. revert acc. induction items as [| [k v] items IH]; intros acc; [reflexivity | ].
  cbn [fold_left]. rewrite IH. unfold decode_item. rewrite Hno. now destruct v.
Qed.

(** The loop depends on its arguments through the selection only. *)
Lemma decode_loop_ext fs fs' prefix prefix' (items acc : record) :
  (forall key, should_decode fs prefix key = should_decode fs' prefix' key) ->
  fold_left (decode_item json_loads fs prefix) items acc
  = fold_left (decode_item json_loads fs' prefix') items acc.
Proof.
  intros Hsame. revert acc. induction items as [| [k v] items IH]; intros acc; [reflexivity | ].
  cbn [fold_left]. rewrite IH. f_equal. unfold decode_item. now rewrite Hsame.
Qed.

End WithJson.

End DecodeFacts.




(** C10. For every input record, [decode_json_fields] with the empty string
    as [json_prefix] decodes exactly what it decodes with no prefix at all
    (the empty prefix selects no key, although every key starts with it), an
    empty [json_fields] set decodes exactly what no set decodes, and with
    both empty the record is returned unchanged. *)
Theorem decode_json_fields_empty_arguments
        (json_loads : pystr -> option pyvalue) (data : record)
        (known : option (gset pystr)) (prefix : option pystr) :
  decode_json_fields json_loads data known (Some [])
  = decode_json_fields json_loads data known None
  /\ decode_json_fields json_loads data (Some ∅) prefix
     = decode_json_fields json_loads data None prefix
  /\ decode_json_fields json_loads data (Some ∅) (Some []) = data
  /\ decode_json_fields json_loads data None (Some []) = data.
Proof.
  assert (Hempty : forall p key, should_decode (Some ∅) p key = should_decode None p key).
  { intros p key. unfold should_decode. now rewrite (bool_decide_eq_true_2 (∅ = ∅)). }
  split; [reflexivity | ]. split.
  - apply DecodeFacts.decode_loop_ext, Hempty.
  - split; apply DecodeFacts.decode_loop_unselected; intros key.
    + now rewrite Hempty.
    + reflexivity.
Qed.

(** ** The Redis model *)

Module RedisFacts.

Lemma stored_with_server_ne m w key key' :
  key <> key' ->
  stored (with_server (delete key m) w) key' = stored (with_server m w) key'.
Proof.
  intros Hne. unfold stored, with_server. cbn [server clock].
  now rewrite lookup_delete_ne.
Qed.

Lemma stored_with_server_delete m w key :
  stored (with_server (delete key m) w) key = None.
Proof. unfold stored, with_server. cbn [server]. now rewrite lookup_delete_eq. Qed.

Lemma stored_logged c w key : stored (logged c w) key = stored w key.
Proof. reflexivity. Qed.

(** What the release call leaves as it was. *)
Lemma release_frame w lock_key token :
  (forall key, key <> lock_key ->
               server (fst (release_lock_script w lock_key token)) !! key = server w !! key)
  /\ calls (fst (release_lock_script w lock_key token))
     = calls w ++ [Call_script [lock_key] [token]]
  /\ clock (fst (release_lock_script w lock_key token)) = clock w.
Proof.
  unfold release_lock_script, RELEASE_LOCK_SCRIPT.
  destruct (bool_decide _); cbn [fst with_server logged server calls clock];
    repeat split; try reflexivity.
  intros key Hne. now rewrite lookup_delete_ne by congruence.
Qed.

(** After the release call the key does not hold the caller's token. *)
Lemma release_not_held w lock_key token :
  stored (fst (release_lock_script w lock_key token)) lock_key <> Some token.
Proof.
  unfold release_lock_script, RELEASE_LOCK_SCRIPT. rewrite stored_logged.
  destruct (bool_decide (stored w lock_key = Some token)) eqn:E; cbn [fst].
  - now rewrite stored_with_server_delete.
  - apply bool_decide_eq_false_1 in E. exact E.
Qed.

Lemma redis_set_clock w key value nx px ex :
  clock (fst (redis_set w key value nx px ex)) = clock w.
Proof.
  unfold redis_set.
  repeat match goal with |- context [if ?b then _ else _] => destruct b end; reflexivity.
Qed.

End RedisFacts.

(** C6. For every state of the lock key and every token, the release script
    deletes the key only if the value it holds equals the token, in one
    step, and replies 1; when the key holds another value or is absent
    (never set, or expired) the script leaves the server as it is and
    replies 0. Either way the call returns a reply and raises nothing, and
    no other key is touched. *)
Theorem release_lock_compare_and_delete (w : world) (lock_key : pystr) (token : pybytes) :
  let w' := fst (release_lock_script w lock_key token) in
  let reply := snd (release_lock_script w lock_key token) in
  (stored w lock_key = Some token ->
   reply = 1%Z /\ stored w' lock_key = None /\ server w' = delete lock_key (server w))
  /\ (stored w lock_key <> Some token -> reply = 0%Z /\ server w' = server w)
  /\ (forall key, key <> lock_key -> stored w' key = stored w key)
  /\ calls w' = calls w ++ [Call_script [lock_key] [token]]
  /\ clock w' = clock w.
Proof.
  cbv zeta. unfold release_lock_script, RELEASE_LOCK_SCRIPT.
  rewrite RedisFacts.stored_logged.
  destruct (bool_decide (stored w lock_key = Some token)) eqn:E; cbn [fst snd].
  - apply bool_decide_eq_true_1 in E.
    repeat split; try reflexivity; try congruence.
    + apply RedisFacts.stored_with_server_delete.
    + intros key Hne. now rewrite RedisFacts.stored_with_server_ne by congruence.
  - apply bool_decide_eq_false_1 in E.
    repeat split; try reflexivity; try contradiction.
Qed.

(** The theorem at another holder's lock: the holder's own token releases
    it. *)
Lemma release_lock_compare_and_delete_witness :
  stored locked_world sample_lock_key = Some (encode_utf8 token_b)
  /\ snd (release_lock_script locked_world sample_lock_key (encode_utf8 token_b)) = 1%Z
  /\ stored (fst (release_lock_script locked_world sample_lock_key (encode_utf8 token_b)))
            sample_lock_key = None.
Proof.
  assert (H : stored locked_world sample_lock_key = Some (encode_utf8 token_b))
    by (vm_compute; reflexivity).
  split; [exact H | ].
  destruct (release_lock_compare_and_delete locked_world sample_lock_key (encode_utf8 token_b))
    as [Hmatch _].
  destruct (Hmatch H) as (Hreply & Hgone & _).
  split; [exact Hreply | exact Hgone].
Defined.

(** ** The manager *)

Module ManagerFacts.

Lemma post_init_valid (c : SessionConfig) :
  post_init c = None ->
  (0 < session_expire c)%Z /\ (0 < lock_timeout c)%Q /\ session_prefix c <> [].
Proof.
  unfold post_init.
  destruct (Z.leb_spec (session_expire c) 0); [discriminate | ].
  destruct (Qle_bool (lock_timeout c) 0) eqn:E; [discriminate | ].
  destruct (session_prefix c); [discriminate | ]. intros _.
  repeat split; [assumption | | discriminate].
  apply Qnot_le_lt. intros Hle. apply Qle_bool_iff in Hle. congruence.
Qed.

Lemma app_suffix_ne (a b : pystr) : b <> [] -> a ++ b <> a.
Proof.
  intros Hb Heq. apply Hb.
  apply (f_equal (@length N)) in Heq. rewrite length_app in Heq.
  destruct b; [reflexivity | simpl in Heq; lia].
Qed.

Lemma live_later (t t' : Q) (e : entry) : (t <= t')%Q -> live t e = false -> live t' e = false.
Proof.
  unfold live. destruct (e_expires e) as [d | ]; [ | discriminate].
  destruct (Qlt_le_dec t d); [discriminate | ]. intros Hle _.
  destruct (Qlt_le_dec t' d); [ | reflexivity]. lra.
Qed.

Lemma live_before (t : Q) (e : entry) :
  match e_expires e with None => True | Some d => (t < d)%Q end -> live t e = true.
Proof.
  unfold live. destruct (e_expires e) as [d | ]; [ | reflexivity].
  intros Hlt. destruct (Qlt_le_dec t d); [reflexivity | lra].
Qed.

(** An absent key stays absent while time passes. *)
Lemma stored_sleep_None (d : Q) (w : world) (key : pystr) :
  (0 <= d)%Q -> stored w key = None -> stored (sleep d w) key = None.
Proof.
  unfold stored, sleep. cbn [server clock]. intros Hd.
  destruct (server w !! key) as [e | ]; [ | reflexivity].
  destruct (live (clock w) e) eqn:E; [discriminate | ]. intros _.
  rewrite (live_later (clock w) (clock w + d) e); [reflexivity | lra | exact E].
Qed.

Lemma retry_interval_positive : (0 < LOCK_RETRY_INTERVAL)%Q.
Proof. reflexivity. Qed.

Section WithConfig.

Variable config : SessionConfig.

(** The loop always ends within the turns it is given. *)
Lemma acquire_total_from (lock_key token : pystr) (start : Q) :
  forall (fuel : nat) (w : world),
    (lock_timeout config - (clock w - start)
     <= (inject_Z (Z.of_nat fuel) - 1) * LOCK_RETRY_INTERVAL)%Q ->
    (1 <= fuel)%nat ->
    Manager.acquire config fuel lock_key token start w <> None.
Proof.
  induction fuel as [| fuel IH]; intros w Hrem Hpos; [lia | ].
  cbn [Manager.acquire]. unfold loop_time.
  destruct (Qlt_le_dec (clock w - start) (lock_timeout config)) as [Hlt | Hge]; [ | discriminate].
  destruct (redis_set w lock_key (encode_utf8 token) true (Some (Manager.lock_px config)) None)
    as [w1 [e | b]] eqn:Hset; [discriminate | ].
  destruct b; [discriminate | ].
  assert (Hclock : clock w1 = clock w).
  { rewrite <- (RedisFacts.redis_set_clock w lock_key (encode_utf8 token) true
                                          (Some (Manager.lock_px config)) None).
    now rewrite Hset. }
  rewrite Nat2Z.inj_succ, <- Z.add_1_l, inject_Z_plus in Hrem.
  change (inject_Z 1) with 1%Q in Hrem.
  apply IH.
  - unfold sleep. cbn [clock]. rewrite Hclock.
    generalize dependent (inject_Z (Z.of_nat fuel)). intros n Hrem.
    unfold LOCK_RETRY_INTERVAL in *. lra.
  - destruct fuel; [ | lia]. exfalso.
    change (inject_Z (Z.of_nat 0)) with 0%Q in Hrem.
    unfold LOCK_RETRY_INTERVAL in *. lra.
Qed.

Lemma acquire_total (lock_key token : pystr) (w : world) :
  Manager.acquire config (Manager.acquire_fuel config) lock_key token (clock w) w <> None.
Proof.
  apply acquire_total_from; [ | unfold Manager.acquire_fuel; lia].
  unfold Manager.acquire_fuel.
  set (x := (lock_timeout config / LOCK_RETRY_INTERVAL)%Q).
  assert (Hx : (lock_timeout config == x * LOCK_RETRY_INTERVAL)%Q).
  { unfold x. field. discriminate. }
  assert (Hceil := Qle_ceiling x).
  rewrite Nat2Z.inj_succ, <- Z.add_1_l, inject_Z_plus. change (inject_Z 1) with 1%Q.
  assert (Hn : (inject_Z (Qceiling x) <= inject_Z (Z.of_nat (Z.to_nat (Qceiling x))))%Q).
  { rewrite <- Zle_Qle. lia. }
  generalize dependent (inject_Z (Z.of_nat (Z.to_nat (Qceiling x)))). intros n Hn.
  generalize dependent (inject_Z (Qceiling x)). intros c Hceil Hn.
  rewrite Hx. clearbody x. unfold LOCK_RETRY_INTERVAL in *. lra.
Qed.


(** The loop writes the lock key only, and time only moves on: a key that
    is absent stays absent. *)
Lemma acquire_keeps_absent (lock_key token key : pystr) (start : Q) :
  key <> lock_key ->
  forall (fuel : nat) (w w' : world) (r : Manager.acquisition),
    stored w key = None ->
    Manager.acquire config fuel lock_key token start w = Some (w', r) ->
    stored w' key = None.
Proof.
  intros Hne. induction fuel as [| fuel IH]; intros w w' r Habs Hrun; [discriminate | ].
  cbn [Manager.acquire] in Hrun.
  destruct (Qlt_le_dec (loop_time w - start) (lock_timeout config)).
  - unfold redis_set in Hrun.
    destruct (negb _) in Hrun.
    { injection Hrun as <- _. exact Habs. }
    destruct (_ && _) in Hrun.
    + apply IH in Hrun; [exact Hrun | ].
      apply stored_sleep_None; [discriminate | exact Habs].
    + injection Hrun as <- _. unfold stored, with_server, logged. cbn [server clock].
      rewrite lookup_insert_ne by congruence. exact Habs.
  - injection Hrun as <- _. exact Habs.
Qed.

(** The loop raises nothing but the server's error reply. *)
Lemma acquire_raises (lock_key token : pystr) (start : Q) :
  forall (fuel : nat) (w w' : world) (e : pyexc),
    Manager.acquire config fuel lock_key token start w = Some (w', Manager.AcquireRaised e) ->
    e = ResponseError.
Proof.
  induction fuel as [| fuel IH]; intros w w' e Hrun; [discriminate | ].
  cbn [Manager.acquire] in Hrun.
  destruct (Qlt_le_dec (loop_time w - start) (lock_timeout config)); [ | discriminate].
  unfold redis_set in Hrun.
  destruct (negb _) in Hrun; [now injection Hrun as _ <- | ].
  destruct (_ && _) in Hrun; [ | discriminate].
  exact (IH _ _ _ Hrun).
Qed.

(** On a free lock key the first conditional write succeeds. *)
Lemma acquire_free (lock_key token : pystr) (w : world) :
  (1 <= Manager.lock_px config)%Z ->
  (0 < lock_timeout config)%Q ->
  stored w lock_key = None ->
  Manager.acquire config (Manager.acquire_fuel config) lock_key token (clock w) w
  = Some (with_server
            (<[lock_key := {| e_value := encode_utf8 token;
                              e_expires := deadline w (Some (Manager.lock_px config)) None |}]>
               (server w))
            (logged (Manager.attempt config lock_key token) w),
          Manager.Acquired).
Proof.
  intros Hpx Hpos Hfree. unfold Manager.acquire_fuel. cbn [Manager.acquire]. unfold loop_time.
  destruct (Qlt_le_dec (clock w - clock w) (lock_timeout config)) as [_ | Hge]; [ | lra].
  unfold redis_set, positive_expiry.
  destruct (Z.ltb_spec 0 (Manager.lock_px config)); [ | lia]. cbn [andb negb].
  rewrite RedisFacts.stored_logged, Hfree.
  rewrite bool_decide_eq_false_2; [reflexivity | ].
  intros [x Hx]. discriminate.
Qed.

End WithConfig.

End ManagerFacts.


(** C9, amended. For every session id whose blob is absent from the store,
    absence is never an error: [get] returns [None] (the absent value, not
    an empty record) without raising, whatever key is asked for; whenever
    [lock] reaches the caller's block it passes the empty mapping, and on a
    free lock key it does reach the block; and neither [get] nor [lock]
    ever raises [SessionNotFoundError] of its own, whatever the store
    holds. *)
Theorem absent_session_is_empty
        (loads : pybytes -> option record) (dumps : record -> pybytes)
        (json_loads : pystr -> option pyvalue) (config : SessionConfig)
        (contextvar session_id : option pystr) (resolved_id : pystr) (w : world) :
  Manager._resolve_session_id contextvar session_id = inr resolved_id ->
  stored w (Manager._session_key config resolved_id) = None ->
  lock_suffix config <> [] ->
  (forall key,
      Manager.get loads json_loads config contextvar key session_id w
      = (logged (Call_get (Manager._session_key config resolved_id)) w,
         Manager.Returned PNone))
  /\ (forall token w2 id data,
         Manager.lock_enter loads json_loads config contextvar session_id token w
         = Some (w2, Manager.Returned (id, data)) ->
         data = [])
  /\ (forall token,
         (1 <= Manager.lock_px config)%Z -> (0 < lock_timeout config)%Q ->
         stored w (Manager._lock_key config resolved_id) = None ->
         exists w2,
           Manager.lock_enter loads json_loads config contextvar session_id token w
           = Some (w2, Manager.Returned (resolved_id, [])))
  /\ (forall key sid w0 id,
         snd (Manager.get loads json_loads config contextvar key sid w0)
         <> Manager.Raised (SessionNotFoundError id))
  /\ (forall token sid w0 w1 id,
         Manager.lock_enter loads json_loads config contextvar sid token w0
         <> Some (w1, Manager.Raised (SessionNotFoundError id))).
Proof.
  intros Hres Habs Hsuffix.
  assert (Hne : Manager._session_key config resolved_id <> Manager._lock_key config resolved_id).
  { unfold Manager._lock_key. intros Heq. symmetry in Heq.
    exact (ManagerFacts.app_suffix_ne _ _ Hsuffix Heq). }
  repeat split.
  - intros key. unfold Manager.get. rewrite Hres. unfold redis_get.
    rewrite RedisFacts.stored_logged, Habs. reflexivity.
  - intros token w2 id data. unfold Manager.lock_enter. rewrite Hres. cbv zeta.
    destruct (Manager.acquire _ _ _ _ _ _) as [[w1 [ | | e]] | ] eqn:Hacq; try discriminate.
    apply (ManagerFacts.acquire_keeps_absent config _ _ _ _ Hne) in Hacq; [ | exact Habs].
    unfold redis_get. rewrite RedisFacts.stored_logged, Hacq. cbn [Manager.truthy_bytes].
    now intros [= _ _ <-].
  - intros token Hpx Hpos Hfree. unfold Manager.lock_enter. rewrite Hres. cbv zeta.
    unfold loop_time. rewrite (ManagerFacts.acquire_free config _ _ _ Hpx Hpos Hfree).
    unfold redis_get. rewrite RedisFacts.stored_logged.
    unfold stored, with_server, logged. cbn [server clock].
    rewrite lookup_insert_ne by congruence.
    unfold stored in Habs. rewrite Habs. cbn [Manager.truthy_bytes]. eauto.
  - intros key sid w0 id. unfold Manager.get.
    destruct (Manager._resolve_session_id contextvar sid) as [e | rid] eqn:Hr.
    + unfold Manager._resolve_session_id in Hr.
      destruct sid; [discriminate | ].
      destruct (get_current_session_id contextvar); [discriminate | ].
      injection Hr as <-. cbn [snd]. discriminate.
    + unfold redis_get. cbv zeta. destruct (stored (logged _ w0) _) as [blob | ]; cbv iota beta;
        [ | cbn [snd]; discriminate].
      unfold Manager._decode_session. destruct (loads blob); [ | cbn [snd]; discriminate].
      destruct key; cbn [snd]; discriminate.
  - intros token sid w0 w1 id. unfold Manager.lock_enter.
    destruct (Manager._resolve_session_id contextvar sid) as [e | rid] eqn:Hr.
    + unfold Manager._resolve_session_id in Hr.
      destruct sid; [discriminate | ].
      destruct (get_current_session_id contextvar); [discriminate | ].
      injection Hr as <-. discriminate.
    + cbv zeta.
      destruct (Manager.acquire _ _ _ _ _ _) as [[w2 [ | | e]] | ] eqn:Hacq; try discriminate.
      * unfold redis_get. cbv zeta.
        destruct (stored (logged _ w2) _) as [[| c blob] | ]; cbn [Manager.truthy_bytes];
          try discriminate.
        unfold Manager._decode_session. destruct (loads (c :: blob)); discriminate.
      * apply ManagerFacts.acquire_raises in Hacq. subst e. discriminate.
Qed.

(** The theorem on a server without keys, for the id of the context
    variable, with the reference codec and the default configuration. *)
Lemma absent_session_is_empty_witness :
  Manager.get PhpRef.loads JsonRef.json_loads default_config (Some sample_id) None None fresh_world
  = (logged (Call_get sample_session_key) fresh_world, Manager.Returned PNone)
  /\ exists w2,
      Manager.lock_enter PhpRef.loads JsonRef.json_loads default_config (Some sample_id)
                         None token_a fresh_world
      = Some (w2, Manager.Returned (sample_id, [])).
Proof.
  destruct (absent_session_is_empty PhpRef.loads PhpRef.dumps JsonRef.json_loads default_config
              (Some sample_id) None sample_id fresh_world)
    as (Hget & _ & Hlock & _ & _); [reflexivity | reflexivity | discriminate | ].
  split; [exact (Hget None) | ].
  apply Hlock; [vm_compute; discriminate | reflexivity | reflexivity].
Defined.

(** C9 as stated fails for [get]: for an absent blob it returns [None], which
    is not the empty session record. *)
Lemma get_absent_counterexample :
  snd (Manager.get PhpRef.loads JsonRef.json_loads default_config None None
                   (Some sample_id) fresh_world)
  <> Manager.Returned (as_value []).
Proof. vm_compute. discriminate. Qed.

(** C2. For every session id and every session record, if the caller's
    block inside [lock] raises, then, under a configuration its constructor
    accepts and whose lock suffix is not empty, the mapping as the block
    left it is encoded and written to the session key with a fresh expiry of
    [session_expire] seconds, the release script is then run on the lock
    key with the caller's token, after which the key no longer holds that
    token, and the block's exception is the one the statement raises. *)
Theorem lock_saves_and_releases_when_block_raises
        (loads : pybytes -> option record) (dumps : record -> pybytes)
        (json_loads : pystr -> option pyvalue) (config : SessionConfig)
        (contextvar session_id : option pystr) (token : pystr)
        (block : Manager.caller_block)
        (w w2 w3 : world) (resolved_id : pystr) (data data' : record) (e : pyexc) :
  post_init config = None ->
  lock_suffix config <> [] ->
  Manager.lock_enter loads json_loads config contextvar session_id token w
  = Some (w2, Manager.Returned (resolved_id, data)) ->
  block w2 data = (w3, data', Some e) ->
  exists w5,
    Manager.lock loads dumps json_loads config contextvar session_id token block w
    = Some (w5, Manager.Raised e)
    /\ calls w5
       = calls w3
         ++ [Call_set (Manager._session_key config resolved_id) (dumps data') false None
                      (Some (session_expire config));
             Call_script [Manager._lock_key config resolved_id] [encode_utf8 token]]
    /\ server w5 !! Manager._session_key config resolved_id
       = Some {| e_value := dumps data';
                 e_expires := Some (clock w3 + inject_Z (session_expire config))%Q |}
    /\ stored w5 (Manager._session_key config resolved_id) = Some (dumps data')
    /\ stored w5 (Manager._lock_key config resolved_id) <> Some (encode_utf8 token)
    /\ clock w5 = clock w3.
Proof.
  intros Hvalid Hsuffix Henter Hblock.
  apply ManagerFacts.post_init_valid in Hvalid as (Hexpire & _ & _).
  assert (Hne : Manager._lock_key config resolved_id <> Manager._session_key config resolved_id).
  { unfold Manager._lock_key. now apply ManagerFacts.app_suffix_ne. }
  unfold Manager.lock. rewrite Henter, Hblock.
  unfold Manager.lock_exit, redis_set, positive_expiry.
  destruct (Z.ltb_spec 0 (session_expire config)); [ | lia]. cbn [andb negb].
  set (sk := Manager._session_key config resolved_id) in *.
  set (lk := Manager._lock_key config resolved_id) in *.
  set (saved := {| e_value := dumps data'; e_expires := _ |}).
  set (w4 := with_server _ _).
  destruct (RedisFacts.release_frame w4 lk (encode_utf8 token)) as (Hkeys & Hcalls & Hclock).
  assert (Hgone := RedisFacts.release_not_held w4 lk (encode_utf8 token)).
  destruct (release_lock_script w4 lk (encode_utf8 token)) as [w5 reply] eqn:Hrel.
  cbn [fst snd] in *.
  assert (Hsaved : server w5 !! sk = Some saved).
  { rewrite Hkeys by congruence. apply lookup_insert_eq. }
  exists w5. repeat split.
  - rewrite Hcalls. unfold w4, with_server, logged. cbn [calls].
    now rewrite <- app_assoc.
  - exact Hsaved.
  - unfold stored. rewrite Hsaved.
    rewrite ManagerFacts.live_before; [reflexivity | ].
    unfold saved, deadline. cbn [e_expires]. rewrite Hclock.
    unfold w4, with_server, logged. cbn [clock].
    assert (0 < inject_Z (session_expire config))%Q
      by (change 0%Q with (inject_Z 0); rewrite <- Zlt_Qlt; lia).
    lra.
  - exact Hgone.
  - exact Hclock.
Qed.

(** The theorem for a block that sets [cart_count] and raises, on a server
    without keys, with the reference codec and the default configuration. *)
Lemma lock_saves_and_releases_when_block_raises_witness :
  exists w5,
    Manager.lock PhpRef.loads PhpRef.dumps JsonRef.json_loads default_config None
                 (Some sample_id) token_a raising_block fresh_world
    = Some (w5, Manager.Raised (OtherException 1))
    /\ stored w5 sample_session_key = Some (PhpRef.dumps [(str "cart_count", PInt 5)])
    /\ stored w5 sample_lock_key = None.
Proof.
  assert (Henter : Manager.lock_enter PhpRef.loads JsonRef.json_loads default_config None
                                      (Some sample_id) token_a fresh_world
                   = Some (logged (Call_get sample_session_key)
                             (with_server
                                (<[sample_lock_key :=
                                     {| e_value := encode_utf8 token_a;
                                        e_expires := Some (0 + inject_Z 30000 / 1000)%Q |}]> ∅)
                                (logged (Call_set sample_lock_key (encode_utf8 token_a) true
                                                  (Some 30000%Z) None) fresh_world)),
                           Manager.Returned (sample_id, []))).
  { vm_compute. reflexivity. }
  destruct (lock_saves_and_releases_when_block_raises
              PhpRef.loads PhpRef.dumps JsonRef.json_loads default_config None
              (Some sample_id) token_a raising_block fresh_world _ _ sample_id [] _ _
              eq_refl ltac:(discriminate) Henter eq_refl)
    as (w5 & Hlock & _ & _ & Hsaved & _ & _).
  exists w5. split; [exact Hlock | ]. split; [exact Hsaved | ].
  vm_compute in Hlock. injection Hlock as <-. vm_compute. reflexivity.
Defined.



Module RoundTripFacts.



End RoundTripFacts.




(** ** Concurrent callers *)

Module ConcurrentFacts.

Import Concurrent.





Section System.

Variable loads : pybytes -> option record.
Variable dumps : record -> pybytes.
Variable json_loads : pystr -> option pyvalue.
Variable config : SessionConfig.
Variable session_id : pystr.
Variable tokens : nat -> pystr.
Variable blocks : nat -> record -> record * option pyexc.

Hypothesis suffix_not_empty : lock_suffix config <> [].





Section Invariant.




End Invariant.

Section Saves.

Hypothesis expire_positive : (0 < session_expire config)%Z.








End Saves.

End System.

End ConcurrentFacts.




(** ** Worked examples *)

Module Examples.

(** The specification's concrete ids: 32 characters are accepted, six are
    rejected, and so is an id with markup in it. *)
Example sanitize_concrete :
  sanitize_phpsessid (Some sample_id) = Some sample_id
  /\ sanitize_phpsessid (Some (str "abc123")) = None
  /\ sanitize_phpsessid (Some (str "abc123<script>")) = None.
Proof. repeat split; vm_compute; reflexivity. Qed.

(** Padding is trimmed, a final newline included; the boundaries are 26 and
    128 characters. *)
Example sanitize_boundaries :
  sanitize_phpsessid (Some (str "  " ++ sample_id ++ [10])) = Some sample_id
  /\ sanitize_phpsessid (Some (repeat 97 25)) = None
  /\ sanitize_phpsessid (Some (repeat 97 26)) = Some (repeat 97 26)
  /\ sanitize_phpsessid (Some (repeat 97 128)) = Some (repeat 97 128)
  /\ sanitize_phpsessid (Some (repeat 97 129)) = None
  /\ sanitize_phpsessid (Some (str "abc123" ++ [0] ++ str "hidden")) = None
  /\ sanitize_phpsessid (Some (str "abc123" ++ [228; 246; 252])) = None.
Proof. repeat split; vm_compute; reflexivity. Qed.

(** The pattern alone would accept a final newline; the trim before it is
    what keeps the newline out of the result. *)
Example pattern_accepts_final_newline :
  PHPSESSID_PATTERN_match (sample_id ++ [10]) = true
  /\ exactly_alnum_26_128 (sample_id ++ [10]) = false.
Proof. split; vm_compute; reflexivity. Qed.

(** The reference codec on the session a PHP process wrote. *)
Example reads_php_serialized_session :
  PhpRef.loads (str "a:2:{s:7:" ++ quoted "user_id" ++ str ";i:123;s:4:" ++ quoted "name"
                ++ str ";s:4:" ++ quoted "John" ++ str ";}")
  = Some [(str "user_id", PInt 123); (str "name", PStr (str "John"))].
Proof. vm_compute. reflexivity. Qed.

(** The reference codec gives a list back as a [dict] keyed 0, 1, ... *)
Example list_comes_back_as_dict :
  PhpRef.loads (PhpRef.dumps [(str "items", PList [PStr (str "a"); PStr (str "b")])])
  = Some [(str "items", PDict [(KInt 0, PStr (str "a")); (KInt 1, PStr (str "b"))])].
Proof. vm_compute. reflexivity. Qed.

(** The reference JSON reader on the texts of the tests. *)
Example json_reader_concrete :
  JsonRef.json_loads json_array_a_b = Some (PList [PStr (str "a"); PStr (str "b")])
  /\ JsonRef.json_loads (str "not json") = None
  /\ JsonRef.json_loads (str "[1, 2, 3]") = Some (PList [PInt 1; PInt 2; PInt 3])
  /\ JsonRef.json_loads (str "{" ++ quoted "event" ++ str ": " ++ quoted "click" ++ str "}")
     = Some (PDict [(KStr (str "event"), PStr (str "click"))])
  /\ JsonRef.json_loads (str "not valid json {") = None.
Proof. repeat split; vm_compute; reflexivity. Qed.

(** The key names of the default configuration. *)
Example key_format :
  Manager._session_key default_config (str "abc123") = str "PHPREDIS_SESSION:abc123"
  /\ Manager._lock_key default_config (str "abc123") = str "PHPREDIS_SESSION:abc123_LOCK".
Proof. split; reflexivity. Qed.

(** The default configuration is one its constructor accepts, and asks for a
    lock expiry of 30000 ms. *)
Example default_config_valid :
  post_init default_config = None /\ Manager.lock_px default_config = 30000%Z.
Proof. split; reflexivity. Qed.

(** One caller alone, run step by step, leaves the world that the [lock]
    statement leaves. *)
Example solo_run_matches_lock :
  option_map Concurrent.shared
             (TwoCallers.two_run false
                (repeat (Concurrent.Run 0) 6) (Concurrent.start_of 1 fresh_world))
  = option_map fst
               (Manager.lock PhpRef.loads PhpRef.dumps JsonRef.json_loads default_config None
                             (Some sample_id) token_a
                             (fun w session => (w, fst (TwoCallers.two_blocks 0 session),
                                                snd (TwoCallers.two_blocks 0 session)))
                             fresh_world).
Proof. vm_compute. reflexivity. Qed.

(** A caller that finds the lock taken gives up after the default thirty
    seconds, having tried 600 times. *)
Example gives_up_after_600_attempts :
  option_map (fun r => (length (calls (fst r)), snd r))
             (Manager.lock_enter PhpRef.loads JsonRef.json_loads default_config None
                                 (Some sample_id) token_a locked_world)
  = Some (600%nat, Manager.Raised (SessionLockError (str "a1b2c3d4...") 30)).
Proof. vm_compute. reflexivity. Qed.

End Examples.

(** * Further properties of the package *)

(** ** The sanitizer, continued *)

Module SanitizeMore.

Lemma lstrip_spaces (ws s : pystr) :
  forallb isspace ws = true -> lstrip (ws ++ s) = lstrip s.
Proof.
  induction ws as [| c ws IH]; [reflexivity | ].
  cbn [forallb]. rewrite andb_true_iff. intros [Hc Hws].
  cbn [app lstrip]. rewrite Hc. now apply IH.
Qed.

Lemma lstrip_all_spaces (ws : pystr) : forallb isspace ws = true -> lstrip ws = [].
Proof.
  intros H. rewrite <- (app_nil_r ws). now rewrite lstrip_spaces.
Qed.

Lemma rstrip_spaces (s ws : pystr) :
  forallb isspace ws = true -> rstrip (s ++ ws) = rstrip s.
Proof.
  intros H. unfold rstrip. rewrite rev_app_distr. rewrite lstrip_spaces; [reflexivity | ].
  rewrite forallb_forall in *. intros c Hc. apply H. now apply in_rev.
Qed.

(** Trimming on the left commutes with white space added on the right, up to
    the trimming on the right that follows. *)
Lemma rstrip_lstrip_spaces (s ws : pystr) :
  forallb isspace ws = true -> rstrip (lstrip (s ++ ws)) = rstrip (lstrip s).
Proof.
  intros H. induction s as [| c s IH].
  - cbn [app lstrip]. now rewrite (lstrip_all_spaces ws H).
  - cbn [app lstrip]. destruct (isspace c); [exact IH | ].
    now apply (rstrip_spaces (c :: s)).
Qed.

Lemma strip_padding (left s right : pystr) :
  forallb isspace left = true -> forallb isspace right = true ->
  strip (left ++ s ++ right) = strip s.
Proof.
  intros Hl Hr. unfold strip. rewrite lstrip_spaces by exact Hl.
  now apply rstrip_lstrip_spaces.
Qed.

Lemma lstrip_no_space (s : pystr) : forallb (fun c => negb (isspace c)) s = true -> lstrip s = s.
Proof. destruct s as [| c s]; [reflexivity | ]. cbn. now destruct (isspace c). Qed.

Lemma strip_no_space (s : pystr) : forallb (fun c => negb (isspace c)) s = true -> strip s = s.
Proof.
  intros H. unfold strip. rewrite (lstrip_no_space s H). unfold rstrip.
  rewrite lstrip_no_space; [apply rev_involutive | ].
  rewrite forallb_forall in *. intros c Hc. apply H. now apply in_rev.
Qed.

Lemma alnum_no_space (s : pystr) :
  forallb is_ascii_alnum s = true -> forallb (fun c => negb (isspace c)) s = true.
Proof.
  rewrite !forallb_forall. intros H c Hc. specialize (H c Hc).
  unfold is_ascii_alnum in H. unfold isspace.
  rewrite !orb_true_iff, !andb_true_iff, !N.leb_le in H.
  apply negb_true_iff, not_true_is_false.
  rewrite !orb_true_iff, !andb_true_iff, !N.leb_le, !N.eqb_eq. lia.
Qed.

(** What the sanitizer returns, when it returns an id: the trimmed
    candidate, which is 26 to 128 ASCII letters and digits. *)
Lemma sanitize_Some (candidate : option pystr) (id : pystr) :
  sanitize_phpsessid candidate = Some id ->
  exists s, candidate = Some s /\ id = strip s /\ exactly_alnum_26_128 id = true.
Proof.
  destruct candidate as [[| c s] | ]; try discriminate.
  unfold sanitize_phpsessid. cbv zeta. rewrite SanitizeFacts.pattern_on_stripped.
  destruct (exactly_alnum_26_128 (strip (c :: s))) eqn:E; cbn [negb]; [ | discriminate].
  destruct (contains 0 (strip (c :: s))); [discriminate | ].
  intros [= <-]. eauto.
Qed.

(** An id of 26 to 128 ASCII letters and digits is accepted as it is. *)
Lemma sanitize_accepts (id : pystr) :
  exactly_alnum_26_128 id = true -> sanitize_phpsessid (Some id) = Some id.
Proof.
  intros Hid. assert (Hparts := Hid). unfold exactly_alnum_26_128 in Hparts.
  rewrite !andb_true_iff, !Nat.leb_le in Hparts. destruct Hparts as [[Halnum Hlo] _].
  assert (Hstrip : strip id = id) by (apply strip_no_space, alnum_no_space, Halnum).
  destruct id as [| c id]; [simpl in Hlo; lia | ].
  unfold sanitize_phpsessid. cbv zeta. rewrite Hstrip.
  rewrite <- Hstrip at 1. rewrite SanitizeFacts.pattern_on_stripped, Hstrip, Hid. cbn [negb].
  now rewrite (SanitizeFacts.alnum_no_nul _ Halnum).
Qed.

End SanitizeMore.

(** X1. Sanitizing is idempotent: what [sanitize_phpsessid] returns is
    returned unchanged when it is sanitized again, and a rejected candidate
    stays rejected. *)
Theorem sanitize_phpsessid_idempotent (candidate : option pystr) :
  sanitize_phpsessid (sanitize_phpsessid candidate) = sanitize_phpsessid candidate.
Proof.
  destruct (sanitize_phpsessid candidate) as [id | ] eqn:E; [ | reflexivity].
  apply SanitizeMore.sanitize_Some in E as (s & _ & _ & Hid).
  now apply SanitizeMore.sanitize_accepts.
Qed.

(** X2. White space around a candidate does not matter: padding a candidate
    on either side with any of the characters [str.strip] removes (spaces,
    tabs, line ends, the Unicode spaces) gives the same result, accepted id
    or rejection, as the candidate alone. *)
Theorem sanitize_phpsessid_ignores_padding (left s right : pystr) :
  forallb isspace left = true -> forallb isspace right = true ->
  sanitize_phpsessid (Some (left ++ s ++ right)) = sanitize_phpsessid (Some s).
Proof.
  intros Hl Hr.
  assert (Hstrip := SanitizeMore.strip_padding left s right Hl Hr).
  assert (Hrun : forall t, sanitize_phpsessid (Some t)
                           = if negb (PHPSESSID_PATTERN_match (strip t)) then None
                             else if contains 0 (strip t) then None else Some (strip t)).
  { intros [| c t]; [reflexivity | reflexivity]. }
  now rewrite !Hrun, Hstrip.
Qed.

(** The theorem for an id between a tab and a line end. *)
Lemma sanitize_phpsessid_ignores_padding_witness :
  sanitize_phpsessid (Some ([9; 32] ++ sample_id ++ [13; 10])) = sanitize_phpsessid (Some sample_id).
Proof.
  apply (sanitize_phpsessid_ignores_padding [9; 32] sample_id [13; 10]); reflexivity.
Defined.

(** ** Keys and exceptions *)

(** X3. The key layout keeps sessions apart: different session ids have
    different session keys and different lock keys, under every
    configuration; and when the lock suffix holds a character that is not an
    ASCII letter or digit, as the default [_LOCK] does, the session key of an
    id made of letters and digits (every id the sanitizer accepts) is never
    the lock key of any id. *)
Theorem session_and_lock_keys_are_apart (config : SessionConfig) (id1 id2 : pystr) :
  (Manager._session_key config id1 = Manager._session_key config id2 -> id1 = id2)
  /\ (Manager._lock_key config id1 = Manager._lock_key config id2 -> id1 = id2)
  /\ (forallb is_ascii_alnum (lock_suffix config) = false ->
      forallb is_ascii_alnum id1 = true ->
      Manager._session_key config id1 <> Manager._lock_key config id2).
Proof.
  unfold Manager._lock_key, Manager._session_key. repeat split.
  - intros H. now apply app_inv_head in H.
  - intros H. apply app_inv_tail in H. now apply app_inv_head in H.
  - intros Hsuffix Hid Heq. rewrite <- app_assoc in Heq. apply app_inv_head in Heq.
    rewrite Heq, forallb_app, Hsuffix, andb_false_r in Hid. discriminate.
Qed.

(** The theorem for the default configuration and the sample id. *)
Lemma session_and_lock_keys_are_apart_witness :
  Manager._session_key default_config sample_id <> Manager._lock_key default_config sample_id.
Proof.
  apply (session_and_lock_keys_are_apart default_config sample_id sample_id); reflexivity.
Defined.

(** X4. The session id an exception carries is cut down: [SessionLockError]
    and [SessionNotFoundError] store at most eleven characters, namely the
    first eight of the id followed by three dots when the id is longer than
    eight characters, and the whole id when it is not; so for an id the
    sanitizer accepts what is stored is never the id. *)
Theorem exceptions_carry_a_redacted_id (session_id : pystr) (timeout : Q) :
  new_SessionLockError session_id timeout = SessionLockError (redacted session_id) timeout
  /\ new_SessionNotFoundError session_id = SessionNotFoundError (redacted session_id)
  /\ (length (redacted session_id) <= 11)%nat
  /\ ((length session_id <= 8)%nat -> redacted session_id = session_id)
  /\ ((8 < length session_id)%nat ->
      redacted session_id = firstn 8 session_id ++ str "..."
      /\ length (redacted session_id) = 11%nat)
  /\ (forall candidate, sanitize_phpsessid candidate = Some session_id ->
                        redacted session_id <> session_id).
Proof.
  assert (Hlong : (8 < length session_id)%nat ->
                  redacted session_id = firstn 8 session_id ++ str "..."
                  /\ length (redacted session_id) = 11%nat).
  { intros Hlen. unfold redacted, slice_to.
    destruct (Nat.ltb_spec 8 (length session_id)); [ | lia].
    split; [reflexivity | ]. rewrite length_app, length_firstn.
    change (length (str "...")) with 3%nat. lia. }
  assert (Hshort : (length session_id <= 8)%nat -> redacted session_id = session_id).
  { intros Hlen. unfold redacted. destruct (Nat.ltb_spec 8 (length session_id)); [lia | reflexivity]. }
  repeat split; try reflexivity; try (apply Hlong; assumption); try assumption.
  - destruct (Nat.le_gt_cases (length session_id) 8) as [Hle | Hgt].
    + rewrite (Hshort Hle). lia.
    + destruct (Hlong Hgt) as [_ ->]. lia.
  - intros candidate Hok Heq.
    apply SanitizeMore.sanitize_Some in Hok as (s & _ & _ & Hid).
    unfold exactly_alnum_26_128 in Hid. rewrite !andb_true_iff, !Nat.leb_le in Hid.
    destruct Hid as [[_ Hlo] _].
    assert (Hgt : (8 < length session_id)%nat) by lia.
    destruct (Hlong Hgt) as [_ Hlen]. rewrite Heq in Hlen. lia.
Qed.

(** The theorem for the sample id, which the sanitizer accepts. *)
Lemma exceptions_carry_a_redacted_id_witness :
  redacted sample_id = str "a1b2c3d4..." /\ redacted sample_id <> sample_id.
Proof.
  destruct (exceptions_carry_a_redacted_id sample_id 30)
    as (_ & _ & _ & _ & Hlong & Hnot).
  split.
  - apply Hlong. vm_compute. lia.
  - apply (Hnot (Some sample_id)). vm_compute. reflexivity.
Defined.

(** ** The operations without a lock *)

Module ManagerMore.

(** Reading a mapping that was just assigned to. *)
Lemma dict_get_setitem_eq (d : record) (k : pystr) (v : pyvalue) :
  dict_get (dict_setitem d k v) k = Some v.
Proof.
  induction d as [| [k0 v0] d IH]; cbn [dict_setitem dict_get].
  - now rewrite bool_decide_eq_true_2.
  - destruct (bool_decide (k0 = k)) eqn:E; cbn [dict_get].
    + now rewrite bool_decide_eq_true_2.
    + now rewrite E.
Qed.

Lemma dict_get_setitem_ne (d : record) (k k' : pystr) (v : pyvalue) :
  k' <> k -> dict_get (dict_setitem d k v) k' = dict_get d k'.
Proof.
  intros Hne. induction d as [| [k0 v0] d IH]; cbn [dict_setitem dict_get].
  - now rewrite bool_decide_eq_false_2 by congruence.
  - destruct (bool_decide (k0 = k)) eqn:E; cbn [dict_get].
    + apply bool_decide_eq_true_1 in E. subst k0.
      now rewrite !bool_decide_eq_false_2 by congruence.
    + now rewrite IH.
Qed.

Lemma dict_keys_setitem (d : record) (k : pystr) (v : pyvalue) :
  dict_keys (dict_setitem d k v)
  = if bool_decide (k ∈ dict_keys d) then dict_keys d else dict_keys d ++ [k].
Proof.
  induction d as [| [k0 v0] d IH]; [reflexivity | ].
  cbn [dict_setitem]. unfold dict_keys in *. cbn [map fst].
  destruct (bool_decide (k0 = k)) eqn:E.
  - apply bool_decide_eq_true_1 in E. subst k0. cbn [map fst].
    rewrite bool_decide_eq_true_2; [reflexivity | left].
  - apply bool_decide_eq_false_1 in E. cbn [map fst]. rewrite IH.
    destruct (bool_decide (k ∈ map fst d)) eqn:Hin.
    + apply bool_decide_eq_true_1 in Hin.
      rewrite bool_decide_eq_true_2; [reflexivity | now right].
    + apply bool_decide_eq_false_1 in Hin.
      rewrite bool_decide_eq_false_2; [reflexivity | ].
      intros Hk. apply elem_of_cons in Hk as [Hk | Hk]; [congruence | contradiction].
Qed.

(** Assignment keeps the keys of a mapping distinct. *)
Lemma dict_setitem_NoDup (d : record) (k : pystr) (v : pyvalue) :
  NoDup (dict_keys d) -> NoDup (dict_keys (dict_setitem d k v)).
Proof.
  intros Hnd. rewrite dict_keys_setitem.
  destruct (bool_decide (k ∈ dict_keys d)) eqn:Hin; [exact Hnd | ].
  apply bool_decide_eq_false_1 in Hin.
  apply NoDup_app. split; [exact Hnd | split; [ | apply NoDup_singleton]].
  intros x Hx Hx'. apply list_elem_of_singleton in Hx'. subst x. contradiction.
Qed.

(** Reading a field after the JSON pass. *)
Lemma dict_get_subfields (json_loads : pystr -> option pyvalue) (sel : pystr -> bool)
      (d : record) (k : pystr) :
  dict_get (map (subfield json_loads sel) d) k
  = option_map (fun v => snd (subfield json_loads sel (k, v))) (dict_get d k).
Proof.
  induction d as [| [k0 v0] d IH]; [reflexivity | ].
  cbn [map]. destruct (subfield json_loads sel (k0, v0)) as [k1 v1] eqn:Hsub.
  assert (Hkey : k1 = k0).
  { change k1 with (fst (k1, v1)). rewrite <- Hsub.
    apply DecodeFacts.subfield_key. }
  subst k1. cbn [dict_get].
  destruct (bool_decide (k0 = k)) eqn:E; [ | exact IH].
  apply bool_decide_eq_true_1 in E. subst k0. cbn [option_map]. now rewrite Hsub.
Qed.

(** An unconditional [SET] with a positive expiry writes the key. *)
Lemma redis_set_ex (w : world) (key : pystr) (value : pybytes) (ex : Z) :
  (0 < ex)%Z ->
  redis_set w key value false None (Some ex)
  = (with_server (<[key := {| e_value := value;
                             e_expires := Some (clock w + inject_Z ex)%Q |}]> (server w))
                 (logged (Call_set key value false None (Some ex)) w),
     inr true).
Proof.
  intros Hex. unfold redis_set, positive_expiry.
  destruct (Z.ltb_spec 0 ex); [reflexivity | lia].
Qed.

(** A key written to expire [ex] seconds later is there before that and
    gone from then on. *)
Lemma stored_written (m : gmap pystr entry) (w : world) (key : pystr) (value : pybytes)
      (ex d : Q) :
  stored (sleep d (with_server (<[key := {| e_value := value;
                                            e_expires := Some (clock w + ex)%Q |}]> m) w)) key
  = if Qlt_le_dec d ex then Some value else None.
Proof.
  unfold stored, sleep, with_server. cbn [server clock]. rewrite lookup_insert_eq.
  unfold live. cbn [e_expires e_value].
  destruct (Qlt_le_dec (clock w + d) (clock w + ex)), (Qlt_le_dec d ex);
    try reflexivity; lra.
Qed.

Lemma positive_expire (config : SessionConfig) :
  post_init config = None -> (0 < session_expire config)%Z.
Proof. intros H. now apply ManagerFacts.post_init_valid in H. Qed.

End ManagerMore.

(** X5. A saved session reads back until it expires: after [save(data)],
    under a configuration the constructor accepts and for data the
    serialization reads back as written, [get()] returns the data after the
    JSON sub-field pass and [get(key)] the field of that name, or [None] for
    a missing field, as long as less than [session_expire] seconds have
    passed; from then on every [get] returns [None]. What the key held
    before the save plays no part. *)
Theorem save_then_get
        (loads : pybytes -> option record) (dumps : record -> pybytes)
        (json_loads : pystr -> option pyvalue) (config : SessionConfig)
        (contextvar session_id : option pystr) (resolved_id : pystr)
        (data : record) (w : world) (d : Q) :
  post_init config = None ->
  Manager._resolve_session_id contextvar session_id = inr resolved_id ->
  NoDup (dict_keys data) ->
  loads (dumps data) = Some data ->
  let w1 := sleep d (fst (Manager.save dumps config contextvar data session_id w)) in
  let sel := selected (Some (json_fields config)) (json_prefix config) in
  snd (Manager.save dumps config contextvar data session_id w) = Manager.Returned tt
  /\ ((d < inject_Z (session_expire config))%Q ->
      snd (Manager.get loads json_loads config contextvar None session_id w1)
      = Manager.Returned (as_value (map (subfield json_loads sel) data))
      /\ forall key,
          snd (Manager.get loads json_loads config contextvar (Some key) session_id w1)
          = Manager.Returned match dict_get data key with
                             | Some v => snd (subfield json_loads sel (key, v))
                             | None => PNone
                             end)
  /\ ((inject_Z (session_expire config) <= d)%Q ->
      forall key,
        snd (Manager.get loads json_loads config contextvar key session_id w1)
        = Manager.Returned PNone).
Proof.
  intros Hvalid Hres Hnd Hcodec. cbv zeta.
  apply ManagerMore.positive_expire in Hvalid.
  unfold Manager.save. rewrite Hres, (ManagerMore.redis_set_ex _ _ _ _ Hvalid). cbn [fst snd].
  split; [reflexivity | ].
  assert (Hstored := ManagerMore.stored_written (server w)
                       (logged (Call_set (Manager._session_key config resolved_id) (dumps data)
                                         false None (Some (session_expire config))) w)
                       (Manager._session_key config resolved_id) (dumps data)
                       (inject_Z (session_expire config)) d).
  cbn [logged clock] in Hstored.
  split.
  - intros Hbefore.
    destruct (Qlt_le_dec d (inject_Z (session_expire config))) as [_ | Hge]; [ | lra].
    assert (Hdecode : Manager._decode_session loads json_loads config (dumps data)
                      = inr (map (subfield json_loads
                                    (selected (Some (json_fields config)) (json_prefix config)))
                                 data)).
    { unfold Manager._decode_session. rewrite Hcodec.
      now rewrite DecodeFacts.decode_json_fields_map. }
    split; [ | intros key]; unfold Manager.get; rewrite Hres; unfold redis_get; cbv zeta;
      rewrite RedisFacts.stored_logged; cbn [with_server logged sleep] in *;
      rewrite Hstored, Hdecode; cbn [snd]; [reflexivity | ].
    rewrite ManagerMore.dict_get_subfields. now destruct (dict_get data key).
  - intros Hafter key.
    destruct (Qlt_le_dec d (inject_Z (session_expire config))) as [Hlt | _]; [lra | ].
    unfold Manager.get. rewrite Hres. unfold redis_get. cbv zeta.
    rewrite RedisFacts.stored_logged. cbn [with_server logged sleep] in *.
    now rewrite Hstored.
Qed.

(** The theorem for a session with a known JSON field, read ten seconds
    after it was saved and a day after, with the reference codec and the
    default configuration. *)
Lemma save_then_get_witness :
  snd (Manager.get PhpRef.loads JsonRef.json_loads default_config None None (Some sample_id)
         (sleep 10 (fst (Manager.save PhpRef.dumps default_config None cart_session
                                      (Some sample_id) fresh_world))))
  = Manager.Returned (as_value cart_session_decoded)
  /\ snd (Manager.get PhpRef.loads JsonRef.json_loads default_config None None (Some sample_id)
            (sleep 86400 (fst (Manager.save PhpRef.dumps default_config None cart_session
                                            (Some sample_id) fresh_world))))
     = Manager.Returned PNone.
Proof.
  assert (Hnd : NoDup (dict_keys cart_session))
    by (apply (bool_decide_unpack _); vm_compute; exact I).
  assert (Hcodec : PhpRef.loads (PhpRef.dumps cart_session) = Some cart_session)
    by (vm_compute; reflexivity).
  split.
  - destruct (save_then_get PhpRef.loads PhpRef.dumps JsonRef.json_loads default_config None
                (Some sample_id) sample_id cart_session fresh_world 10 eq_refl eq_refl Hnd Hcodec)
      as (_ & Hbefore & _).
    destruct Hbefore as [Hall _]; [reflexivity | ].
    rewrite Hall. vm_compute. reflexivity.
  - destruct (save_then_get PhpRef.loads PhpRef.dumps JsonRef.json_loads default_config None
                (Some sample_id) sample_id cart_session fresh_world 86400 eq_refl eq_refl
                Hnd Hcodec)
      as (_ & _ & Hafter).
    apply Hafter. vm_compute. discriminate.
Defined.

(** X6. [set(key, value)] reads the mapping, assigns the one field and
    saves: where the blob is absent or empty it starts from the empty
    mapping, otherwise from what the serialization reads; afterwards the
    session key holds the encoding of the updated mapping, and, for a
    mapping the serialization reads back as written, [get(key)] returns the
    value set (after the JSON sub-field pass) while every other field reads
    as it would have read before. The configuration is one the constructor
    accepts. *)
Theorem set_updates_one_field
        (loads : pybytes -> option record) (dumps : record -> pybytes)
        (json_loads : pystr -> option pyvalue) (config : SessionConfig)
        (contextvar session_id : option pystr) (resolved_id : pystr)
        (key : pystr) (value : pyvalue) (before : record) (w : world) :
  post_init config = None ->
  Manager._resolve_session_id contextvar session_id = inr resolved_id ->
  match stored w (Manager._session_key config resolved_id) with
  | None => before = []
  | Some [] => before = []
  | Some blob => loads blob = Some before
  end ->
  let w1 := fst (Manager.set loads dumps config contextvar key value session_id w) in
  let sel := selected (Some (json_fields config)) (json_prefix config) in
  snd (Manager.set loads dumps config contextvar key value session_id w) = Manager.Returned tt
  /\ stored w1 (Manager._session_key config resolved_id)
     = Some (dumps (dict_setitem before key value))
  /\ (NoDup (dict_keys before) ->
      loads (dumps (dict_setitem before key value)) = Some (dict_setitem before key value) ->
      snd (Manager.get loads json_loads config contextvar (Some key) session_id w1)
      = Manager.Returned (snd (subfield json_loads sel (key, value)))
      /\ forall other,
          other <> key ->
          snd (Manager.get loads json_loads config contextvar (Some other) session_id w1)
          = Manager.Returned match dict_get before other with
                             | Some v => snd (subfield json_loads sel (other, v))
                             | None => PNone
                             end).
Proof.
  intros Hvalid Hres Hread. cbv zeta.
  apply ManagerMore.positive_expire in Hvalid.
  set (sk := Manager._session_key config resolved_id) in *.
  assert (Hset : Manager.set loads dumps config contextvar key value session_id w
                 = (with_server
                      (<[sk := {| e_value := dumps (dict_setitem before key value);
                                  e_expires := Some (clock w + inject_Z (session_expire config))%Q |}]>
                         (server w))
                      (logged (Call_set sk (dumps (dict_setitem before key value)) false None
                                        (Some (session_expire config)))
                              (logged (Call_get sk) w)),
                    Manager.Returned tt)).
  { unfold Manager.set. rewrite Hres. unfold redis_get. cbv zeta. fold sk.
    rewrite RedisFacts.stored_logged.
    destruct (stored w sk) as [[| c blob] | ]; cbn [Manager.truthy_bytes].
    - subst before. now rewrite (ManagerMore.redis_set_ex _ _ _ _ Hvalid).
    - rewrite Hread. now rewrite (ManagerMore.redis_set_ex _ _ _ _ Hvalid).
    - subst before. now rewrite (ManagerMore.redis_set_ex _ _ _ _ Hvalid). }
  rewrite Hset. cbn [fst snd].
  assert (Hstored : forall c,
             stored (logged c (with_server
                      (<[sk := {| e_value := dumps (dict_setitem before key value);
                                  e_expires := Some (clock w + inject_Z (session_expire config))%Q |}]>
                         (server w))
                      (logged (Call_set sk (dumps (dict_setitem before key value)) false None
                                        (Some (session_expire config)))
                              (logged (Call_get sk) w)))) sk
             = Some (dumps (dict_setitem before key value))).
  { intros c. unfold stored, with_server, logged. cbn [server clock].
    rewrite lookup_insert_eq. rewrite ManagerFacts.live_before; [reflexivity | ].
    cbn [e_expires].
    assert (0 < inject_Z (session_expire config))%Q
      by (change 0%Q with (inject_Z 0); rewrite <- Zlt_Qlt; lia).
    lra. }
  split; [reflexivity | ]. split.
  - rewrite <- (Hstored (Call_get sk)). reflexivity.
  - intros Hnd Hcodec.
    assert (Hdecode : Manager._decode_session loads json_loads config
                        (dumps (dict_setitem before key value))
                      = inr (map (subfield json_loads
                                    (selected (Some (json_fields config)) (json_prefix config)))
                                 (dict_setitem before key value))).
    { unfold Manager._decode_session. rewrite Hcodec.
      rewrite DecodeFacts.decode_json_fields_map; [reflexivity | ].
      now apply ManagerMore.dict_setitem_NoDup. }
    split; [ | intros other Hother]; unfold Manager.get; rewrite Hres; unfold redis_get;
      cbv zeta; fold sk; rewrite Hstored, Hdecode; cbn [snd];
      rewrite ManagerMore.dict_get_subfields.
    + now rewrite ManagerMore.dict_get_setitem_eq.
    + rewrite ManagerMore.dict_get_setitem_ne by exact Hother.
      now destruct (dict_get before other).
Qed.

(** The theorem for the count of a cart set on a stored session, with the
    reference codec and the default configuration. *)
Lemma set_updates_one_field_witness :
  let w1 := fst (Manager.set PhpRef.loads PhpRef.dumps default_config None (str "cart_count")
                             (PInt 5) (Some sample_id) cart_world) in
  snd (Manager.get PhpRef.loads JsonRef.json_loads default_config None (Some (str "cart_count"))
                   (Some sample_id) w1) = Manager.Returned (PInt 5)
  /\ snd (Manager.get PhpRef.loads JsonRef.json_loads default_config None (Some (str "user_id"))
                      (Some sample_id) w1) = Manager.Returned (PInt 123).
Proof.
  cbv zeta.
  destruct (set_updates_one_field PhpRef.loads PhpRef.dumps JsonRef.json_loads default_config
              None (Some sample_id) sample_id (str "cart_count") (PInt 5) cart_session cart_world
              eq_refl eq_refl)
    as (_ & _ & Hget).
  - vm_compute. reflexivity.
  - destruct Hget as [Hkey Hother].
    + apply (bool_decide_unpack _). vm_compute. exact I.
    + vm_compute. reflexivity.
    + split; [exact Hkey | ].
      rewrite (Hother (str "user_id")) by discriminate. reflexivity.
Defined.

(** X7. [delete()] returns true exactly when the session key held a blob;
    afterwards [exists()] returns false, every [get] returns [None] and a
    second [delete()] returns false; and no other key, the session's lock
    key included, is touched. *)
Theorem delete_removes_the_session
        (loads : pybytes -> option record) (json_loads : pystr -> option pyvalue)
        (config : SessionConfig)
        (contextvar session_id : option pystr) (resolved_id : pystr) (w : world) :
  Manager._resolve_session_id contextvar session_id = inr resolved_id ->
  let w1 := fst (Manager.delete config contextvar session_id w) in
  snd (Manager.delete config contextvar session_id w)
  = Manager.Returned (bool_decide (is_Some (stored w (Manager._session_key config resolved_id))))
  /\ snd (Manager.exists_ config contextvar session_id w1) = Manager.Returned false
  /\ (forall key,
         snd (Manager.get loads json_loads config contextvar key session_id w1)
         = Manager.Returned PNone)
  /\ snd (Manager.delete config contextvar session_id w1) = Manager.Returned false
  /\ (forall other, other <> Manager._session_key config resolved_id ->
                    stored w1 other = stored w other).
Proof.
  intros Hres. cbv zeta.
  set (sk := Manager._session_key config resolved_id).
  assert (Hdel : stored (fst (Manager.delete config contextvar session_id w)) sk = None
                 /\ snd (Manager.delete config contextvar session_id w)
                    = Manager.Returned (bool_decide (is_Some (stored w sk)))
                 /\ forall other, other <> sk ->
                      stored (fst (Manager.delete config contextvar session_id w)) other
                      = stored w other).
  { unfold Manager.delete. rewrite Hres. unfold redis_delete. cbv zeta. fold sk.
    rewrite RedisFacts.stored_logged.
    destruct (stored w sk) as [blob | ] eqn:Hs; cbn [fst snd].
    - split; [apply RedisFacts.stored_with_server_delete | ]. split.
      + rewrite bool_decide_eq_true_2 by eauto. reflexivity.
      + intros other Hne. now rewrite RedisFacts.stored_with_server_ne by congruence.
    - split; [exact Hs | ]. split; [ | reflexivity].
      rewrite bool_decide_eq_false_2; [reflexivity | ]. intros [x Hx]. discriminate. }
  destruct Hdel as (Hgone & Hreply & Hothers).
  set (w1 := fst (Manager.delete config contextvar session_id w)) in *.
  repeat split.
  - exact Hreply.
  - unfold Manager.exists_. rewrite Hres. unfold redis_exists. cbv zeta. fold sk.
    rewrite RedisFacts.stored_logged, Hgone. reflexivity.
  - intros key. unfold Manager.get. rewrite Hres. unfold redis_get. cbv zeta. fold sk.
    now rewrite RedisFacts.stored_logged, Hgone.
  - unfold Manager.delete. rewrite Hres. unfold redis_delete. cbv zeta. fold sk.
    now rewrite RedisFacts.stored_logged, Hgone.
  - exact Hothers.
Qed.

(** The theorem for the stored sample session. *)
Lemma delete_removes_the_session_witness :
  snd (Manager.delete default_config None (Some sample_id) cart_world) = Manager.Returned true
  /\ snd (Manager.exists_ default_config None (Some sample_id)
            (fst (Manager.delete default_config None (Some sample_id) cart_world)))
     = Manager.Returned false.
Proof.
  destruct (delete_removes_the_session PhpRef.loads JsonRef.json_loads default_config None
              (Some sample_id) sample_id cart_world eq_refl)
    as (Hreply & Hexists & _).
  split; [ | exact Hexists].
  rewrite Hreply. vm_compute. reflexivity.
Defined.

(** X8. [exists()] only looks: it returns true exactly when the session key
    holds a blob and leaves the server as it is; and it agrees with [get()]
    on absence, in that [exists()] returns false exactly when [get()]
    returns [None]. *)
Theorem exists_agrees_with_get
        (loads : pybytes -> option record) (json_loads : pystr -> option pyvalue)
        (config : SessionConfig)
        (contextvar session_id : option pystr) (resolved_id : pystr) (w : world) :
  Manager._resolve_session_id contextvar session_id = inr resolved_id ->
  snd (Manager.exists_ config contextvar session_id w)
  = Manager.Returned (bool_decide (is_Some (stored w (Manager._session_key config resolved_id))))
  /\ server (fst (Manager.exists_ config contextvar session_id w)) = server w
  /\ (snd (Manager.exists_ config contextvar session_id w) = Manager.Returned false
      <-> snd (Manager.get loads json_loads config contextvar None session_id w)
          = Manager.Returned PNone).
Proof.
  intros Hres. unfold Manager.exists_, Manager.get. rewrite Hres.
  unfold redis_exists, redis_get. cbv zeta. rewrite !RedisFacts.stored_logged.
  cbn [fst snd]. split; [ | split; [reflexivity | ]].
  - now destruct (bool_decide _).
  - destruct (stored w (Manager._session_key config resolved_id)) as [blob | ].
    + rewrite bool_decide_eq_true_2 by eauto. cbn [snd].
      split; [discriminate | ].
      unfold Manager._decode_session, as_value. destruct (loads blob); cbn [snd]; discriminate.
    + rewrite bool_decide_eq_false_2; [split; reflexivity | ].
      intros [x Hx]. discriminate.
Qed.

(** The theorem for the stored sample session. *)
Lemma exists_agrees_with_get_witness :
  snd (Manager.exists_ default_config None (Some sample_id) cart_world) = Manager.Returned true
  /\ snd (Manager.exists_ default_config (Some sample_id) None fresh_world)
     = Manager.Returned false.
Proof.
  split.
  - destruct (exists_agrees_with_get PhpRef.loads JsonRef.json_loads default_config None
                (Some sample_id) sample_id cart_world eq_refl) as (Hreply & _).
    rewrite Hreply. vm_compute. reflexivity.
  - destruct (exists_agrees_with_get PhpRef.loads JsonRef.json_loads default_config
                (Some sample_id) None sample_id fresh_world eq_refl) as (Hreply & _).
    rewrite Hreply. vm_compute. reflexivity.
Defined.

(** X9. A blob the serialization cannot read is an error and never partial
    data: [get] raises the [ValueError] of [phpserialize.loads], for every
    key and also for an empty blob; [set] raises it for every blob that is
    not empty; and neither writes anything, the only command issued being
    the read. *)
Theorem malformed_blob_raises
        (loads : pybytes -> option record) (dumps : record -> pybytes)
        (json_loads : pystr -> option pyvalue) (config : SessionConfig)
        (contextvar session_id : option pystr) (resolved_id : pystr)
        (blob : pybytes) (w : world) :
  Manager._resolve_session_id contextvar session_id = inr resolved_id ->
  stored w (Manager._session_key config resolved_id) = Some blob ->
  loads blob = None ->
  (forall key,
      Manager.get loads json_loads config contextvar key session_id w
      = (logged (Call_get (Manager._session_key config resolved_id)) w,
         Manager.Raised ValueError))
  /\ (blob <> [] ->
      forall key value,
        Manager.set loads dumps config contextvar key value session_id w
        = (logged (Call_get (Manager._session_key config resolved_id)) w,
           Manager.Raised ValueError)).
Proof.
  intros Hres Hblob Hbad. split.
  - intros key. unfold Manager.get. rewrite Hres. unfold redis_get. cbv zeta.
    rewrite RedisFacts.stored_logged, Hblob. unfold Manager._decode_session.
    now rewrite Hbad.
  - intros Hne key value. unfold Manager.set. rewrite Hres. unfold redis_get. cbv zeta.
    rewrite RedisFacts.stored_logged, Hblob.
    destruct blob as [| c blob]; [contradiction | ]. cbn [Manager.truthy_bytes].
    now rewrite Hbad.
Qed.

(** The theorem for bytes that are no serialized session, with the
    reference codec. *)
Lemma malformed_blob_raises_witness :
  snd (Manager.get PhpRef.loads JsonRef.json_loads default_config None None (Some sample_id)
                   broken_world) = Manager.Raised ValueError
  /\ snd (Manager.set PhpRef.loads PhpRef.dumps default_config None (str "k") (PInt 1)
                      (Some sample_id) broken_world) = Manager.Raised ValueError.
Proof.
  destruct (malformed_blob_raises PhpRef.loads PhpRef.dumps JsonRef.json_loads default_config
              None (Some sample_id) sample_id (str "garbage") broken_world)
    as [Hget Hset]; [reflexivity | vm_compute; reflexivity | vm_compute; reflexivity | ].
  split.
  - now rewrite (Hget None).
  - rewrite (Hset ltac:(discriminate) (str "k") (PInt 1)). reflexivity.
Defined.

(** ** The lock, continued *)

Module LockMore.

Section WithConfig.

Variable config : SessionConfig.

(** What the attempts of the loop are, and how many: each turn issues one
    conditional write, and a turn starts only while the timeout has not
    passed. *)
Lemma acquire_attempts (lock_key token : pystr) (start : Q) :
  forall (fuel : nat) (w w' : world) (r : Manager.acquisition),
    Manager.acquire config fuel lock_key token start w = Some (w', r) ->
    exists n : nat,
      calls w' = calls w ++ repeat (Manager.attempt config lock_key token) n
      /\ (n = 0%nat
          \/ ((inject_Z (Z.of_nat n) - 1) * LOCK_RETRY_INTERVAL
              < lock_timeout config - (clock w - start))%Q)
      /\ (r = Manager.Acquired -> (1 <= n)%nat).
Proof.
  induction fuel as [| fuel IH]; intros w w' r Hrun; [discriminate | ].
  cbn [Manager.acquire] in Hrun. unfold loop_time in Hrun.
  destruct (Qlt_le_dec (clock w - start) (lock_timeout config)) as [Hlt | Hge].
  - unfold redis_set in Hrun. fold (Manager.attempt config lock_key token) in Hrun.
    destruct (negb _) in Hrun.
    { injection Hrun as <- <-. exists 1%nat. cbn [logged calls repeat].
      split; [reflexivity | ]. split; [ | discriminate]. right.
      change (inject_Z (Z.of_nat 1)) with 1%Q. unfold LOCK_RETRY_INTERVAL. lra. }
    destruct (_ && _) in Hrun.
    + apply IH in Hrun as (n & Hcalls & Hbound & Hacq).
      cbn [sleep logged calls clock] in *.
      exists (S n). split; [rewrite Hcalls, <- app_assoc; reflexivity | ].
      split; [ | intros _; lia]. right.
      rewrite Nat2Z.inj_succ, <- Z.add_1_l, inject_Z_plus. change (inject_Z 1) with 1%Q.
      destruct Hbound as [-> | Hbound].
      * change (inject_Z (Z.of_nat 0)) with 0%Q. unfold LOCK_RETRY_INTERVAL. lra.
      * generalize dependent (inject_Z (Z.of_nat n)). intros x Hbound.
        unfold LOCK_RETRY_INTERVAL in *. lra.
    + injection Hrun as <- <-. exists 1%nat. cbn [with_server logged calls repeat].
      split; [reflexivity | ]. split; [ | intros _; lia]. right.
      change (inject_Z (Z.of_nat 1)) with 1%Q. unfold LOCK_RETRY_INTERVAL. lra.
  - injection Hrun as <- <-. exists 0%nat. cbn [repeat]. rewrite app_nil_r.
    split; [reflexivity | ]. split; [now left | discriminate].
Qed.

(** The loop writes no key but the lock key. *)
Lemma acquire_other_keys (lock_key token key : pystr) (start : Q) :
  key <> lock_key ->
  forall (fuel : nat) (w w' : world) (r : Manager.acquisition),
    Manager.acquire config fuel lock_key token start w = Some (w', r) ->
    server w' !! key = server w !! key.
Proof.
  intros Hne. induction fuel as [| fuel IH]; intros w w' r Hrun; [discriminate | ].
  cbn [Manager.acquire] in Hrun.
  destruct (Qlt_le_dec (loop_time w - start) (lock_timeout config)).
  - unfold redis_set in Hrun.
    destruct (negb _) in Hrun; [now injection Hrun as <- _ | ].
    destruct (_ && _) in Hrun.
    + apply IH in Hrun. exact Hrun.
    + injection Hrun as <- _. cbn [with_server server logged].
      now rewrite lookup_insert_ne by congruence.
  - now injection Hrun as <- _.
Qed.

End WithConfig.

End LockMore.

(** X10. The wait for the lock is bounded: whatever the server holds, the
    acquisition loop of [lock] ends, having issued nothing but conditional
    writes of the lock key, at most one per retry interval of 50 ms that
    fits into [lock_timeout] (600 for the default of 30 seconds), and having
    written no other key; so [lock] itself always ends. *)
Theorem lock_wait_is_bounded
        (loads : pybytes -> option record) (dumps : record -> pybytes)
        (json_loads : pystr -> option pyvalue) (config : SessionConfig)
        (contextvar session_id : option pystr) (lock_key token : pystr)
        (block : Manager.caller_block) (w : world) :
  (exists (w' : world) (r : Manager.acquisition) (n : nat),
      Manager.acquire config (Manager.acquire_fuel config) lock_key token (clock w) w
      = Some (w', r)
      /\ calls w' = calls w ++ repeat (Manager.attempt config lock_key token) n
      /\ (n <= Z.to_nat (Qceiling (lock_timeout config / LOCK_RETRY_INTERVAL)))%nat
      /\ forall key, key <> lock_key -> server w' !! key = server w !! key)
  /\ Manager.lock loads dumps json_loads config contextvar session_id token block w <> None.
Proof.
  split.
  - destruct (Manager.acquire config (Manager.acquire_fuel config) lock_key token (clock w) w)
      as [[w' r] | ] eqn:Hacq.
    2:{ exfalso. exact (ManagerFacts.acquire_total config lock_key token w Hacq). }
    destruct (LockMore.acquire_attempts config _ _ _ _ _ _ _ Hacq) as (n & Hcalls & Hbound & _).
    exists w', r, n. repeat split; [exact Hcalls | | ].
    + destruct Hbound as [-> | Hbound]; [lia | ].
      set (x := (lock_timeout config / LOCK_RETRY_INTERVAL)%Q) in *.
      assert (Hx : (lock_timeout config == x * LOCK_RETRY_INTERVAL)%Q).
      { unfold x. field. discriminate. }
      assert (Hceil := Qle_ceiling x).
      assert (Hlt : (inject_Z (Z.of_nat n - 1) < inject_Z (Qceiling x))%Q).
      { unfold Z.sub. rewrite inject_Z_plus. change (inject_Z (- (1))) with (- (1))%Q.
        rewrite Hx in Hbound.
        generalize dependent (inject_Z (Z.of_nat n)). intros y Hbound.
        generalize dependent (inject_Z (Qceiling x)). intros c Hceil.
        clearbody x. unfold LOCK_RETRY_INTERVAL in *. lra. }
      rewrite <- Zlt_Qlt in Hlt. lia.
    + intros key Hne. exact (LockMore.acquire_other_keys config _ _ _ _ Hne _ _ _ _ Hacq).
  - unfold Manager.lock, Manager.lock_enter.
    destruct (Manager._resolve_session_id contextvar session_id) as [e | rid]; [discriminate | ].
    cbv zeta. unfold loop_time.
    destruct (Manager.acquire _ _ _ _ _ _) as [[w1 [ | | e]] | ] eqn:Hacq.
    + destruct (redis_get _ _) as [w2 raw].
      destruct (if Manager.truthy_bytes raw then _ else _) as [e | data]; [discriminate | ].
      destruct (block w2 data) as [[w3 data'] raised].
      destruct (Manager.lock_exit _ _ _ _ _ _) as [w5 [u | e]]; discriminate.
    + discriminate.
    + discriminate.
    + exfalso. exact (ManagerFacts.acquire_total config _ token w Hacq).
Qed.

(** X11. A blob the serialization cannot read stops [lock] after the lock
    was taken: on a free lock key, with a session blob that is not empty and
    cannot be read, [lock] raises [ValueError] before it reaches the caller's
    block, it saves nothing and leaves the blob as it was, and it does not
    release the lock, which stays set to the caller's token until it
    expires. The configuration is one the constructor accepts, with a
    timeout of a millisecond or more and a lock suffix that is not empty. *)
Theorem lock_keeps_the_lock_on_a_malformed_blob
        (loads : pybytes -> option record) (dumps : record -> pybytes)
        (json_loads : pystr -> option pyvalue) (config : SessionConfig)
        (contextvar session_id : option pystr) (resolved_id : pystr) (token : pystr)
        (block : Manager.caller_block) (blob : pybytes) (w : world) :
  post_init config = None ->
  (1 <= Manager.lock_px config)%Z ->
  lock_suffix config <> [] ->
  Manager._resolve_session_id contextvar session_id = inr resolved_id ->
  stored w (Manager._lock_key config resolved_id) = None ->
  stored w (Manager._session_key config resolved_id) = Some blob ->
  blob <> [] ->
  loads blob = None ->
  exists w2,
    Manager.lock loads dumps json_loads config contextvar session_id token block w
    = Some (w2, Manager.Raised ValueError)
    /\ stored w2 (Manager._lock_key config resolved_id) = Some (encode_utf8 token)
    /\ stored w2 (Manager._session_key config resolved_id) = Some blob
    /\ calls w2
       = calls w ++ [Manager.attempt config (Manager._lock_key config resolved_id) token;
                     Call_get (Manager._session_key config resolved_id)].
Proof.
  intros Hvalid Hpx Hsuffix Hres Hfree Hblob Hne Hbad.
  apply ManagerFacts.post_init_valid in Hvalid as (_ & Htimeout & _).
  set (sk := Manager._session_key config resolved_id) in *.
  set (lk := Manager._lock_key config resolved_id) in *.
  assert (Hkeys : sk <> lk).
  { unfold lk, Manager._lock_key. fold sk. intros Heq. symmetry in Heq.
    exact (ManagerFacts.app_suffix_ne _ _ Hsuffix Heq). }
  unfold Manager.lock, Manager.lock_enter. rewrite Hres. cbv zeta. unfold loop_time. fold lk sk.
  rewrite (ManagerFacts.acquire_free config lk token w Hpx Htimeout Hfree).
  unfold redis_get. cbv zeta. rewrite RedisFacts.stored_logged.
  set (w1 := with_server _ _).
  assert (Hsession : stored w1 sk = Some blob).
  { unfold w1, stored, with_server, logged in *. cbn [server clock] in *.
    now rewrite lookup_insert_ne by congruence. }
  rewrite Hsession. destruct blob as [| c blob]; [contradiction | ].
  cbn [Manager.truthy_bytes]. unfold Manager._decode_session. rewrite Hbad.
  eexists. split; [reflexivity | ]. repeat split.
  - rewrite RedisFacts.stored_logged. unfold w1, stored, with_server, logged.
    cbn [server clock]. rewrite lookup_insert_eq.
    rewrite ManagerFacts.live_before; [reflexivity | ].
    cbn [e_expires deadline clock].
    assert (0 < inject_Z (Manager.lock_px config))%Q
      by (change 0%Q with (inject_Z 0); rewrite <- Zlt_Qlt; lia).
    assert (0 < inject_Z (Manager.lock_px config) / 1000)%Q
      by (apply Qlt_shift_div_l; [reflexivity | lra]).
    lra.
  - rewrite RedisFacts.stored_logged. exact Hsession.
  - unfold w1. cbn [logged with_server calls]. now rewrite <- app_assoc.
Qed.

(** The theorem for bytes that are no serialized session, with the
    reference codec and the default configuration. *)
Lemma lock_keeps_the_lock_on_a_malformed_blob_witness :
  exists w2,
    Manager.lock PhpRef.loads PhpRef.dumps JsonRef.json_loads default_config None
                 (Some sample_id) token_a raising_block broken_world
    = Some (w2, Manager.Raised ValueError)
    /\ stored w2 sample_lock_key = Some (encode_utf8 token_a).
Proof.
  destruct (lock_keeps_the_lock_on_a_malformed_blob
              PhpRef.loads PhpRef.dumps JsonRef.json_loads default_config None (Some sample_id)
              sample_id token_a raising_block (str "garbage") broken_world)
    as (w2 & Hlock & Hheld & _).
  - reflexivity.
  - vm_compute. discriminate.
  - discriminate.
  - reflexivity.
  - vm_compute. reflexivity.
  - vm_compute. reflexivity.
  - discriminate.
  - vm_compute. reflexivity.
  - exists w2. split; [exact Hlock | exact Hheld].
Defined.



Module ExitFacts.

(** The save of the [finally] part, under a positive [session_expire]. *)
Lemma lock_exit_runs (dumps : record -> pybytes) (config : SessionConfig)
      (resolved_id token : pystr) (data : record) (w : world) :
  (0 < session_expire config)%Z ->
  Manager.lock_exit dumps config resolved_id token data w
  = (fst (release_lock_script
            (with_server
               (<[Manager._session_key config resolved_id :=
                    {| e_value := dumps data;
                       e_expires := Some (clock w + inject_Z (session_expire config))%Q |}]>
                  (server w))
               (logged (Call_set (Manager._session_key config resolved_id) (dumps data)
                                 false None (Some (session_expire config))) w))
            (Manager._lock_key config resolved_id) (encode_utf8 token)),
     Manager.Returned tt).
Proof.
  intros Hex. unfold Manager.lock_exit. rewrite (ManagerMore.redis_set_ex _ _ _ _ Hex).
  now destruct (release_lock_script _ _ _).
Qed.

(** A key just written with a positive expiry is there. *)
Lemma stored_fresh (m : gmap pystr entry) (w : world) (key : pystr) (value : pybytes) (ex : Z) :
  (0 < ex)%Z ->
  stored (with_server (<[key := {| e_value := value;
                                  e_expires := Some (clock w + inject_Z ex)%Q |}]> m) w) key
  = Some value.
Proof.
  intros Hex. unfold stored, with_server. cbn [server clock]. rewrite lookup_insert_eq.
  rewrite ManagerFacts.live_before; [reflexivity | ]. cbn [e_expires].
  assert (0 < inject_Z ex)%Q by (change 0%Q with (inject_Z 0); rewrite <- Zlt_Qlt; lia).
  lra.
Qed.

(** What is stored, read through the server's keys and the clock alone. *)
Lemma stored_ext (w w' : world) (key : pystr) :
  server w' !! key = server w !! key -> clock w' = clock w -> stored w' key = stored w key.
Proof. unfold stored. now intros -> ->. Qed.

End ExitFacts.

(** X13. What one holder saves is what the next holder is given: when a
    holder that still owns the lock leaves its block, the [finally] part of
    [lock] saves the mapping and frees the lock key, and the next [lock] for
    that session id acquires at its first write and yields that mapping
    after the JSON sub-field pass. The mapping is one the serialization
    reads back as written, with an encoding that is not empty; the
    configuration is one the constructor accepts, with a timeout of a
    millisecond or more and a lock suffix that is not empty. *)
Theorem lock_hands_the_session_over
        (loads : pybytes -> option record) (dumps : record -> pybytes)
        (json_loads : pystr -> option pyvalue) (config : SessionConfig)
        (contextvar : option pystr) (resolved_id token token' : pystr)
        (data : record) (w : world) :
  post_init config = None ->
  (1 <= Manager.lock_px config)%Z ->
  lock_suffix config <> [] ->
  stored w (Manager._lock_key config resolved_id) = Some (encode_utf8 token) ->
  NoDup (dict_keys data) ->
  loads (dumps data) = Some data ->
  dumps data <> [] ->
  exists w5 w7,
    Manager.lock_exit dumps config resolved_id token data w = (w5, Manager.Returned tt)
    /\ stored w5 (Manager._lock_key config resolved_id) = None
    /\ Manager.lock_enter loads json_loads config contextvar (Some resolved_id) token' w5
       = Some (w7, Manager.Returned
                     (resolved_id,
                      map (subfield json_loads
                             (selected (Some (json_fields config)) (json_prefix config)))
                          data)).
Proof.
  intros Hvalid Hpx Hsuffix Hheld Hnd Hcodec Hnonempty.
  apply ManagerFacts.post_init_valid in Hvalid as (Hexpire & Htimeout & _).
  set (sk := Manager._session_key config resolved_id) in *.
  set (lk := Manager._lock_key config resolved_id) in *.
  assert (Hkeys : sk <> lk).
  { unfold lk, Manager._lock_key. fold sk. intros Heq. symmetry in Heq.
    exact (ManagerFacts.app_suffix_ne _ _ Hsuffix Heq). }
  rewrite (ExitFacts.lock_exit_runs dumps config resolved_id token data w Hexpire). fold sk lk.
  set (w4 := with_server _ _).
  destruct (RedisFacts.release_frame w4 lk (encode_utf8 token)) as (Hframe & _ & Hclock).
  assert (Hheld4 : stored w4 lk = Some (encode_utf8 token)).
  { rewrite <- Hheld. apply ExitFacts.stored_ext; [ | reflexivity].
    unfold w4. cbn [with_server server logged]. now rewrite lookup_insert_ne. }
  assert (Hfree : stored (fst (release_lock_script w4 lk (encode_utf8 token))) lk = None).
  { unfold release_lock_script, RELEASE_LOCK_SCRIPT. rewrite RedisFacts.stored_logged.
    rewrite bool_decide_eq_true_2 by exact Hheld4. cbn [fst].
    apply RedisFacts.stored_with_server_delete. }
  assert (Hsaved : stored (fst (release_lock_script w4 lk (encode_utf8 token))) sk
                   = Some (dumps data)).
  { rewrite (ExitFacts.stored_ext w4 _ sk (Hframe sk Hkeys) Hclock).
    exact (ExitFacts.stored_fresh (server w) (logged _ w) sk (dumps data) _ Hexpire). }
  set (w5 := fst (release_lock_script w4 lk (encode_utf8 token))) in *.
  assert (Henter : exists w7,
             Manager.lock_enter loads json_loads config contextvar (Some resolved_id) token' w5
             = Some (w7, Manager.Returned
                           (resolved_id,
                            map (subfield json_loads
                                   (selected (Some (json_fields config)) (json_prefix config)))
                                data))).
  { unfold Manager.lock_enter. cbn [Manager._resolve_session_id]. cbv zeta. unfold loop_time.
    fold sk lk.
    rewrite (ManagerFacts.acquire_free config lk token' w5 Hpx Htimeout Hfree).
    unfold redis_get. cbv zeta. rewrite RedisFacts.stored_logged.
    set (w6 := with_server _ _).
    assert (Hsession : stored w6 sk = Some (dumps data)).
    { rewrite <- Hsaved. apply ExitFacts.stored_ext; [ | reflexivity].
      unfold w6. cbn [with_server server logged]. now rewrite lookup_insert_ne by congruence. }
    rewrite Hsession.
    destruct (dumps data) as [| c blob] eqn:Hblob; [contradiction | ].
    cbn [Manager.truthy_bytes]. unfold Manager._decode_session. rewrite Hcodec.
    rewrite DecodeFacts.decode_json_fields_map by exact Hnd.
    eexists. reflexivity. }
  destruct Henter as [w7 Henter].
  exists w5, w7. split; [reflexivity | ]. split; [exact Hfree | exact Henter].
Qed.

(** The theorem for a holder that leaves its block with the sample session,
    on a server where its lock is in place, with the reference codec and the
    default configuration. *)
Lemma lock_hands_the_session_over_witness :
  exists w5 w7,
    Manager.lock_exit PhpRef.dumps default_config sample_id token_b cart_session locked_world
    = (w5, Manager.Returned tt)
    /\ Manager.lock_enter PhpRef.loads JsonRef.json_loads default_config None (Some sample_id)
                          token_a w5
       = Some (w7, Manager.Returned (sample_id, cart_session_decoded)).
Proof.
  destruct (lock_hands_the_session_over PhpRef.loads PhpRef.dumps JsonRef.json_loads
              default_config None sample_id token_b token_a cart_session locked_world eq_refl)
    as (w5 & w7 & Hexit & _ & Henter).
  - vm_compute. discriminate.
  - discriminate.
  - vm_compute. reflexivity.
  - apply (bool_decide_unpack _). vm_compute. exact I.
  - vm_compute. reflexivity.
  - vm_compute. discriminate.
  - exists w5, w7. split; [exact Hexit | ]. rewrite Henter. vm_compute. reflexivity.
Defined.

(** X14. A holder whose lock is no longer its own still saves: when the
    lock key has expired, or holds another holder's token, by the time the
    block is left, the [finally] part of [lock] writes the mapping to the
    session key all the same, replacing what is there, and leaves the lock
    key as it found it. The configuration is one the constructor accepts,
    with a lock suffix that is not empty. *)
Theorem lapsed_holder_still_saves
        (dumps : record -> pybytes) (config : SessionConfig)
        (resolved_id token : pystr) (data : record) (w : world) :
  post_init config = None ->
  lock_suffix config <> [] ->
  stored w (Manager._lock_key config resolved_id) <> Some (encode_utf8 token) ->
  exists w5,
    Manager.lock_exit dumps config resolved_id token data w = (w5, Manager.Returned tt)
    /\ stored w5 (Manager._session_key config resolved_id) = Some (dumps data)
    /\ stored w5 (Manager._lock_key config resolved_id)
       = stored w (Manager._lock_key config resolved_id).
Proof.
  intros Hvalid Hsuffix Hlost.
  apply ManagerMore.positive_expire in Hvalid.
  set (sk := Manager._session_key config resolved_id) in *.
  set (lk := Manager._lock_key config resolved_id) in *.
  assert (Hkeys : sk <> lk).
  { unfold lk, Manager._lock_key. fold sk. intros Heq. symmetry in Heq.
    exact (ManagerFacts.app_suffix_ne _ _ Hsuffix Heq). }
  rewrite (ExitFacts.lock_exit_runs dumps config resolved_id token data w Hvalid). fold sk lk.
  set (w4 := with_server _ _).
  destruct (RedisFacts.release_frame w4 lk (encode_utf8 token)) as (Hframe & _ & Hclock).
  assert (Hsame4 : stored w4 lk = stored w lk).
  { apply ExitFacts.stored_ext; [ | reflexivity].
    unfold w4. cbn [with_server server logged]. now rewrite lookup_insert_ne. }
  eexists. split; [reflexivity | ]. split.
  - rewrite (ExitFacts.stored_ext w4 _ sk (Hframe sk Hkeys) Hclock).
    exact (ExitFacts.stored_fresh (server w) (logged _ w) sk (dumps data) _ Hvalid).
  - rewrite <- Hsame4. unfold release_lock_script, RELEASE_LOCK_SCRIPT.
    rewrite RedisFacts.stored_logged.
    rewrite bool_decide_eq_false_2 by (rewrite Hsame4; exact Hlost). reflexivity.
Qed.

(** The theorem for a holder that leaves its block when another holder's
    lock is in place. *)
Lemma lapsed_holder_still_saves_witness :
  exists w5,
    Manager.lock_exit PhpRef.dumps default_config sample_id token_a cart_session locked_world
    = (w5, Manager.Returned tt)
    /\ stored w5 sample_session_key = Some (PhpRef.dumps cart_session)
    /\ stored w5 sample_lock_key = Some (encode_utf8 token_b).
Proof.
  destruct (lapsed_holder_still_saves PhpRef.dumps default_config sample_id token_a cart_session
              locked_world eq_refl)
    as (w5 & Hexit & Hsaved & Hlock).
  - discriminate.
  - vm_compute. discriminate.
  - exists w5. split; [exact Hexit | ]. split; [exact Hsaved | ].
    etransitivity; [exact Hlock | vm_compute; reflexivity].
Defined.

(** X15. Releasing twice is harmless: after a release call, a second call
    with the same token replies 0 and leaves the server as the first call
    left it, whatever the key held. *)
Theorem release_twice_is_release_once (w : world) (lock_key : pystr) (token : pybytes) :
  let w1 := fst (release_lock_script w lock_key token) in
  snd (release_lock_script w1 lock_key token) = 0%Z
  /\ server (fst (release_lock_script w1 lock_key token)) = server w1.
Proof.
  cbv zeta. assert (Hgone := RedisFacts.release_not_held w lock_key token).
  set (w1 := fst (release_lock_script w lock_key token)) in *. clearbody w1.
  unfold release_lock_script, RELEASE_LOCK_SCRIPT. rewrite !RedisFacts.stored_logged.
  rewrite bool_decide_eq_false_2 by exact Hgone. split; reflexivity.
Qed.

(** ** The middleware *)

(** X16. The middleware scopes the session id to the request: when the
    sanitizer accepts the request's cookie, the rest of the application runs
    with the sanitized id, 26 to 128 ASCII letters and digits, both in the
    context variable and in [request.state.session_id]; when it does not (no
    cookie, or a rejected one) the request and the context variable are
    passed on as they were; and in either case, whether the application
    returned or raised, its result is what [dispatch] gives back and the
    context variable holds [None] afterwards. *)
Theorem dispatch_scopes_the_session_id
        (response : Type) (cookie_name : pystr) (req : Starlette.request)
        (call_next : Starlette.call_next_t response) (contextvar : option pystr) :
  fst (Starlette.dispatch response cookie_name req call_next contextvar) = None
  /\ (forall id,
         sanitize_phpsessid (Starlette.cookies req !! cookie_name) = Some id ->
         exactly_alnum_26_128 id = true
         /\ snd (Starlette.dispatch response cookie_name req call_next contextvar)
            = snd (call_next {| Starlette.cookies := Starlette.cookies req;
                                Starlette.state_session_id := Some id |} (Some id)))
  /\ (sanitize_phpsessid (Starlette.cookies req !! cookie_name) = None ->
      snd (Starlette.dispatch response cookie_name req call_next contextvar)
      = snd (call_next req contextvar)).
Proof.
  unfold Starlette.dispatch. cbv zeta.
  destruct (sanitize_phpsessid (Starlette.cookies req !! cookie_name)) as [id | ] eqn:Hid.
  - apply SanitizeMore.sanitize_Some in Hid as (s & _ & _ & Hok).
    assert (Htruthy : Starlette.truthy_str (Some id) = true).
    { unfold exactly_alnum_26_128 in Hok. rewrite !andb_true_iff, !Nat.leb_le in Hok.
      destruct id; [simpl in Hok; lia | reflexivity]. }
    rewrite Htruthy. unfold set_current_session_id.
    destruct (call_next _ _) as [ctx result] eqn:Hcall. cbn [fst snd].
    split; [reflexivity | ]. split; [ | discriminate].
    intros id' [= <-]. split; [exact Hok | ]. now rewrite Hcall.
  - cbn [Starlette.truthy_str].
    destruct (call_next req contextvar) as [ctx result]. cbn [fst snd].
    split; [reflexivity | ]. split; [discriminate | reflexivity].
Qed.

(** The theorem for a request whose cookie is the sample id followed by a
    line end, and an application that answers with the id it finds in the
    context. *)
Lemma dispatch_scopes_the_session_id_witness :
  Starlette.dispatch (option pystr) (str "PHPSESSID")
    {| Starlette.cookies := {[ str "PHPSESSID" := sample_id ++ [10] ]};
       Starlette.state_session_id := None |}
    (fun _ ctx => (ctx, Manager.Returned ctx)) None
  = (None, Manager.Returned (Some sample_id)).
Proof.
  set (req := {| Starlette.cookies := {[ str "PHPSESSID" := sample_id ++ [10] ]};
                 Starlette.state_session_id := None |}).
  destruct (dispatch_scopes_the_session_id (option pystr) (str "PHPSESSID") req
              (fun _ ctx => (ctx, Manager.Returned ctx)) None) as (Hctx & Hvalid & _).
  destruct (Hvalid sample_id) as [_ Hresult]; [vm_compute; reflexivity | ].
  destruct (Starlette.dispatch _ _ _ _ _) as [ctx result]. cbn [fst snd] in *.
  now subst.
Defined.

(** X17. Behind the middleware the manager builds its keys from sanitized
    ids only: an operation that passes no [session_id], here [get], does
    under the middleware exactly what it does when the sanitized cookie is
    passed explicitly, its one command reading the session prefix followed
    by letters and digits; and with no acceptable cookie, in a context
    without an id, it raises [SessionContextError] and issues no command. *)
Theorem middleware_feeds_the_manager
        (loads : pybytes -> option record) (json_loads : pystr -> option pyvalue)
        (config : SessionConfig) (cookie_name : pystr) (req : Starlette.request)
        (key : option pystr) (w : world) (contextvar : option pystr) :
  let read := fun (_ : Starlette.request) (ctx : option pystr) =>
                (ctx, Manager.Returned (Manager.get loads json_loads config ctx key None w)) in
  (forall id,
      sanitize_phpsessid (Starlette.cookies req !! cookie_name) = Some id ->
      snd (Starlette.dispatch _ cookie_name req read contextvar)
      = Manager.Returned (Manager.get loads json_loads config None key (Some id) w)
      /\ calls (fst (Manager.get loads json_loads config None key (Some id) w))
         = calls w ++ [Call_get (session_prefix config ++ id)]
      /\ forallb is_ascii_alnum id = true)
  /\ (sanitize_phpsessid (Starlette.cookies req !! cookie_name) = None ->
      contextvar = None ->
      snd (Starlette.dispatch _ cookie_name req read contextvar)
      = Manager.Returned (w, Manager.Raised SessionContextError)).
Proof.
  cbv zeta. unfold Starlette.dispatch. cbv zeta.
  destruct (sanitize_phpsessid (Starlette.cookies req !! cookie_name)) as [id | ] eqn:Hid.
  - apply SanitizeMore.sanitize_Some in Hid as (s & _ & _ & Hok).
    unfold exactly_alnum_26_128 in Hok. rewrite !andb_true_iff, !Nat.leb_le in Hok.
    destruct Hok as [[Halnum Hlo] _].
    assert (Htruthy : Starlette.truthy_str (Some id) = true)
      by (destruct id; [simpl in Hlo; lia | reflexivity]).
    rewrite Htruthy. cbn [snd]. split; [ | discriminate].
    intros id' [= <-]. split; [reflexivity | ]. split; [ | exact Halnum].
    unfold Manager.get. cbn [Manager._resolve_session_id]. unfold redis_get. cbv zeta.
    destruct (stored _ _) as [blob | ]; [ | reflexivity].
    destruct (Manager._decode_session loads json_loads config blob); [reflexivity | ].
    now destruct key.
  - cbn [Starlette.truthy_str snd]. split; [discriminate | ]. now intros _ ->.
Qed.

(** The theorem for a request with the sample id as its cookie, read on the
    server that holds the sample session. *)
Lemma middleware_feeds_the_manager_witness :
  let read := fun (_ : Starlette.request) (ctx : option pystr) =>
                (ctx, Manager.Returned
                        (Manager.get PhpRef.loads JsonRef.json_loads default_config ctx
                                     (Some (str "user_id")) None cart_world)) in
  (exists w1,
      snd (Starlette.dispatch _ (str "PHPSESSID")
             {| Starlette.cookies := {[ str "PHPSESSID" := sample_id ]};
                Starlette.state_session_id := None |} read None)
      = Manager.Returned (w1, Manager.Returned (PInt 123))
      /\ calls w1 = [Call_get sample_session_key])
  /\ snd (Starlette.dispatch _ (str "PHPSESSID")
            {| Starlette.cookies := {[ str "PHPSESSID" := str "abc123<script>" ]};
               Starlette.state_session_id := None |} read None)
     = Manager.Returned (cart_world, Manager.Raised SessionContextError).
Proof.
  cbv zeta. split.
  - destruct (middleware_feeds_the_manager PhpRef.loads JsonRef.json_loads default_config
                (str "PHPSESSID")
                {| Starlette.cookies := {[ str "PHPSESSID" := sample_id ]};
                   Starlette.state_session_id := None |}
                (Some (str "user_id")) cart_world None) as [Hvalid _].
    destruct (Hvalid sample_id) as (Hresult & Hcalls & _); [vm_compute; reflexivity | ].
    exists (fst (Manager.get PhpRef.loads JsonRef.json_loads default_config None
                             (Some (str "user_id")) (Some sample_id) cart_world)).
    split.
    + etransitivity; [exact Hresult | ].
      rewrite (surjective_pairing (Manager.get _ _ _ _ _ _ _)) at 1.
      apply f_equal, f_equal. vm_compute. reflexivity.
    + etransitivity; [exact Hcalls | ]. reflexivity.
  - destruct (middleware_feeds_the_manager PhpRef.loads JsonRef.json_loads default_config
                (str "PHPSESSID")
                {| Starlette.cookies := {[ str "PHPSESSID" := str "abc123<script>" ]};
                   Starlette.state_session_id := None |}
                (Some (str "user_id")) cart_world None) as [_ Hinvalid].
    apply Hinvalid; [vm_compute; reflexivity | reflexivity].
Defined.

(** ** Writers without the lock *)

Module SetFacts.

(** [set] is its read followed by its write. *)
Lemma set_read_then_write (loads : pybytes -> option record) (dumps : record -> pybytes)
      (config : SessionConfig) (contextvar session_id : option pystr)
      (key : pystr) (value : pyvalue) (w : world) :
  Manager.set loads dumps config contextvar key value session_id w
  = match SetSteps.set_read loads config contextvar session_id w with
    | (w1, Manager.Raised e) => (w1, Manager.Raised e)
    | (w1, Manager.Returned (resolved_id, data)) =>
        SetSteps.set_write dumps config resolved_id data key value w1
    end.
Proof.
  unfold Manager.set, SetSteps.set_read, SetSteps.set_write.
  destruct (Manager._resolve_session_id contextvar session_id) as [e | resolved_id];
    [reflexivity | ].
  destruct (redis_get w (Manager._session_key config resolved_id)) as [w1 raw].
  destruct (Manager.truthy_bytes raw); [ | reflexivity].
  destruct raw as [blob | ]; [ | reflexivity].
  destruct (loads blob); reflexivity.
Qed.

(** What the read of [set] gives on a session that holds [before]. *)
Lemma set_read_reads (loads : pybytes -> option record) (config : SessionConfig)
      (contextvar session_id : option pystr) (resolved_id : pystr) (before : record)
      (w : world) :
  Manager._resolve_session_id contextvar session_id = inr resolved_id ->
  match stored w (Manager._session_key config resolved_id) with
  | None => before = []
  | Some [] => before = []
  | Some blob => loads blob = Some before
  end ->
  SetSteps.set_read loads config contextvar session_id w
  = (logged (Call_get (Manager._session_key config resolved_id)) w,
     Manager.Returned (resolved_id, before)).
Proof.
  intros Hres Hread. unfold SetSteps.set_read. rewrite Hres. unfold redis_get. cbv zeta.
  rewrite RedisFacts.stored_logged.
  destruct (stored w _) as [[| c blob] | ]; cbn [Manager.truthy_bytes].
  - now subst before.
  - now rewrite Hread.
  - now subst before.
Qed.

(** What the write of [set] does under a positive expiry. *)
Lemma set_write_writes (dumps : record -> pybytes) (config : SessionConfig)
      (resolved_id : pystr) (data : record) (key : pystr) (value : pyvalue) (w : world) :
  (0 < session_expire config)%Z ->
  SetSteps.set_write dumps config resolved_id data key value w
  = (with_server
       (<[Manager._session_key config resolved_id :=
            {| e_value := dumps (dict_setitem data key value);
               e_expires := Some (clock w + inject_Z (session_expire config))%Q |}]>
          (server w))
       (logged (Call_set (Manager._session_key config resolved_id)
                         (dumps (dict_setitem data key value)) false None
                         (Some (session_expire config))) w),
     Manager.Returned tt).
Proof.
  intros Hex. unfold SetSteps.set_write. cbv zeta.
  now rewrite (ManagerMore.redis_set_ex _ _ _ _ Hex).
Qed.

End SetFacts.

(** X18. Two [set] calls that interleave lose an update. [set] is its read
    followed by its write, with an await in between; when two callers set
    different fields of one session and both read before either writes, both
    start from the same mapping, the second write replaces the first, and the
    session is left holding the old mapping with the second caller's field
    alone: the first caller's field reads in it as it did before. Run one
    after the other, the two calls leave both fields set. The configuration
    is one the constructor accepts. *)
Theorem interleaved_sets_lose_an_update
        (loads : pybytes -> option record) (dumps : record -> pybytes)
        (config : SessionConfig)
        (contextvar_a session_id_a contextvar_b session_id_b : option pystr)
        (resolved_id : pystr) (key_a key_b : pystr) (value_a value_b : pyvalue)
        (before : record) (w : world) :
  post_init config = None ->
  Manager._resolve_session_id contextvar_a session_id_a = inr resolved_id ->
  Manager._resolve_session_id contextvar_b session_id_b = inr resolved_id ->
  match stored w (Manager._session_key config resolved_id) with
  | None => before = []
  | Some [] => before = []
  | Some blob => loads blob = Some before
  end ->
  key_a <> key_b ->
  let sk := Manager._session_key config resolved_id in
  let w1 := fst (SetSteps.set_read loads config contextvar_a session_id_a w) in
  let w2 := fst (SetSteps.set_read loads config contextvar_b session_id_b w1) in
  let w3 := fst (SetSteps.set_write dumps config resolved_id before key_a value_a w2) in
  let w4 := fst (SetSteps.set_write dumps config resolved_id before key_b value_b w3) in
  let one_by_one :=
    fst (Manager.set loads dumps config contextvar_b key_b value_b session_id_b
           (fst (Manager.set loads dumps config contextvar_a key_a value_a session_id_a w))) in
  (forall key value,
      Manager.set loads dumps config contextvar_a key value session_id_a w
      = SetSteps.set_write dumps config resolved_id before key value w1)
  /\ snd (SetSteps.set_read loads config contextvar_a session_id_a w)
     = Manager.Returned (resolved_id, before)
  /\ snd (SetSteps.set_read loads config contextvar_b session_id_b w1)
     = Manager.Returned (resolved_id, before)
  /\ stored w4 sk = Some (dumps (dict_setitem before key_b value_b))
  /\ dict_get (dict_setitem before key_b value_b) key_a = dict_get before key_a
  /\ calls w4 = calls w ++ [Call_get sk; Call_get sk;
                            Call_set sk (dumps (dict_setitem before key_a value_a)) false None
                                     (Some (session_expire config));
                            Call_set sk (dumps (dict_setitem before key_b value_b)) false None
                                     (Some (session_expire config))]
  /\ (dumps (dict_setitem before key_a value_a) <> [] ->
      loads (dumps (dict_setitem before key_a value_a))
      = Some (dict_setitem before key_a value_a) ->
      stored one_by_one sk
      = Some (dumps (dict_setitem (dict_setitem before key_a value_a) key_b value_b))
      /\ dict_get (dict_setitem (dict_setitem before key_a value_a) key_b value_b) key_a
         = Some value_a).
Proof.
  intros Hvalid Hres_a Hres_b Hread Hne. cbv zeta.
  apply ManagerMore.positive_expire in Hvalid.
  rewrite (SetFacts.set_read_reads loads config contextvar_a session_id_a resolved_id before w
             Hres_a Hread).
  cbn [fst snd].
  assert (Hread1 : match stored (logged (Call_get (Manager._session_key config resolved_id)) w)
                           (Manager._session_key config resolved_id) with
                   | None => before = []
                   | Some [] => before = []
                   | Some blob => loads blob = Some before
                   end) by (rewrite RedisFacts.stored_logged; exact Hread).
  rewrite (SetFacts.set_read_reads loads config contextvar_b session_id_b resolved_id before _
             Hres_b Hread1).
  cbn [fst snd].
  rewrite !(SetFacts.set_write_writes dumps config resolved_id _ _ _ _ Hvalid).
  cbn [fst snd].
  split.
  { intros key value. rewrite SetFacts.set_read_then_write.
    now rewrite (SetFacts.set_read_reads loads config contextvar_a session_id_a resolved_id
                   before w Hres_a Hread). }
  split; [reflexivity | ]. split; [reflexivity | ]. split.
  { exact (ExitFacts.stored_fresh _ _ _ _ _ Hvalid). }
  split.
  { apply ManagerMore.dict_get_setitem_ne. exact Hne. }
  split.
  { cbn [with_server logged calls]. now rewrite <- !app_assoc. }
  intros Hnonempty Hcodec.
  split; [ | rewrite ManagerMore.dict_get_setitem_ne by exact Hne;
             apply ManagerMore.dict_get_setitem_eq].
  rewrite (SetFacts.set_read_then_write loads dumps config contextvar_a).
  rewrite (SetFacts.set_read_reads loads config contextvar_a session_id_a resolved_id before w
             Hres_a Hread).
  rewrite (SetFacts.set_write_writes dumps config resolved_id _ _ _ _ Hvalid).
  cbn [fst].
  rewrite (SetFacts.set_read_then_write loads dumps config contextvar_b).
  rewrite (SetFacts.set_read_reads loads config contextvar_b session_id_b resolved_id
             (dict_setitem before key_a value_a) _ Hres_b).
  - rewrite (SetFacts.set_write_writes dumps config resolved_id _ _ _ _ Hvalid).
    cbn [fst]. exact (ExitFacts.stored_fresh _ _ _ _ _ Hvalid).
  - cbn [fst].
    match goal with
    | |- context [stored ?W ?K] =>
        assert (Hs : stored W K = Some (dumps (dict_setitem before key_a value_a)))
          by exact (ExitFacts.stored_fresh _ _ _ _ _ Hvalid);
        rewrite Hs
    end.
    destruct (dumps (dict_setitem before key_a value_a)) eqn:Hblob; [contradiction | ].
    exact Hcodec.
Qed.

(** The theorem for two callers of the stored sample session, one setting the
    count of the cart and one the user, with the reference codec and the
    default configuration. *)
Lemma interleaved_sets_lose_an_update_witness :
  let a := str "cart_count" in
  let b := str "user_id" in
  let w1 := fst (SetSteps.set_read PhpRef.loads default_config None (Some sample_id) cart_world) in
  let w2 := fst (SetSteps.set_read PhpRef.loads default_config None (Some sample_id) w1) in
  let w3 := fst (SetSteps.set_write PhpRef.dumps default_config sample_id cart_session
                                    a (PInt 5) w2) in
  let w4 := fst (SetSteps.set_write PhpRef.dumps default_config sample_id cart_session
                                    b (PInt 7) w3) in
  stored w4 sample_session_key = Some (PhpRef.dumps (dict_setitem cart_session b (PInt 7)))
  /\ dict_get (dict_setitem cart_session b (PInt 7)) a = None.
Proof.
  cbv zeta.
  destruct (interleaved_sets_lose_an_update PhpRef.loads PhpRef.dumps default_config
              None (Some sample_id) None (Some sample_id) sample_id
              (str "cart_count") (str "user_id") (PInt 5) (PInt 7) cart_session cart_world
              eq_refl eq_refl eq_refl)
    as (_ & _ & _ & Hstored & Hlost & _).
  - vm_compute. reflexivity.
  - discriminate.
  - split.
    + etransitivity; [ | exact Hstored]. reflexivity.
    + rewrite Hlost. vm_compute. reflexivity.
Defined.

(** ** A whole lock cycle *)

(** X19. A lock cycle whose block returns: on a free lock key and a stored
    session, [lock] issues four commands, the conditional write of the token,
    the read of the session, the save and the release; the block is given the
    stored mapping after the JSON sub-field pass, and what the session key
    holds afterwards is the encoding of what the block made of that mapping.
    So a block that changes nothing still rewrites the session, with its JSON
    fields stored in decoded form. The lock key is free again afterwards.
    The block here does not use the server and takes no time; the
    configuration is one the constructor accepts, with a timeout of a
    millisecond or more and a lock suffix that is not empty. *)
Theorem lock_cycle_saves_the_decoded_session
        (loads : pybytes -> option record) (dumps : record -> pybytes)
        (json_loads : pystr -> option pyvalue) (config : SessionConfig)
        (contextvar session_id : option pystr) (resolved_id token : pystr)
        (block : Manager.caller_block) (change : record -> record)
        (blob : pybytes) (data : record) (w : world) :
  post_init config = None ->
  (1 <= Manager.lock_px config)%Z ->
  lock_suffix config <> [] ->
  Manager._resolve_session_id contextvar session_id = inr resolved_id ->
  stored w (Manager._lock_key config resolved_id) = None ->
  stored w (Manager._session_key config resolved_id) = Some blob ->
  blob <> [] ->
  loads blob = Some data ->
  NoDup (dict_keys data) ->
  (forall w' d, block w' d = (w', change d, None)) ->
  let sk := Manager._session_key config resolved_id in
  let lk := Manager._lock_key config resolved_id in
  let decoded :=
    map (subfield json_loads (selected (Some (json_fields config)) (json_prefix config))) data in
  exists w5,
    Manager.lock loads dumps json_loads config contextvar session_id token block w
    = Some (w5, Manager.Returned tt)
    /\ calls w5 = calls w ++ [Manager.attempt config lk token;
                              Call_get sk;
                              Call_set sk (dumps (change decoded)) false None
                                       (Some (session_expire config));
                              Call_script [lk] [encode_utf8 token]]
    /\ stored w5 sk = Some (dumps (change decoded))
    /\ stored w5 lk = None.
Proof.
  intros Hvalid Hpx Hsuffix Hres Hfree Hsession Hnonempty Hloads Hnd Hblock. cbv zeta.
  apply ManagerFacts.post_init_valid in Hvalid as (Hexpire & Htimeout & _).
  set (sk := Manager._session_key config resolved_id) in *.
  set (lk := Manager._lock_key config resolved_id) in *.
  assert (Hkeys : sk <> lk).
  { unfold lk, Manager._lock_key. fold sk. intros Heq. symmetry in Heq.
    exact (ManagerFacts.app_suffix_ne _ _ Hsuffix Heq). }
  set (decoded := map _ data).
  assert (Henter : Manager.lock_enter loads json_loads config contextvar session_id token w
                   = Some (logged (Call_get sk)
                             (with_server
                                (<[lk := {| e_value := encode_utf8 token;
                                            e_expires :=
                                              deadline w (Some (Manager.lock_px config)) None |}]>
                                   (server w))
                                (logged (Manager.attempt config lk token) w)),
                           Manager.Returned (resolved_id, decoded))).
  { unfold Manager.lock_enter. rewrite Hres. cbv zeta. unfold loop_time. fold sk lk.
    rewrite (ManagerFacts.acquire_free config lk token w Hpx Htimeout Hfree).
    unfold redis_get. cbv zeta. rewrite RedisFacts.stored_logged.
    set (w1 := with_server _ _).
    assert (Hsession1 : stored w1 sk = Some blob).
    { rewrite <- Hsession. apply ExitFacts.stored_ext; [ | reflexivity].
      unfold w1. cbn [with_server server logged]. now rewrite lookup_insert_ne by congruence. }
    rewrite Hsession1.
    destruct blob as [| c blob]; [contradiction | ].
    cbn [Manager.truthy_bytes]. unfold Manager._decode_session. rewrite Hloads.
    now rewrite DecodeFacts.decode_json_fields_map by exact Hnd. }
  unfold Manager.lock. rewrite Henter, Hblock.
  rewrite (ExitFacts.lock_exit_runs dumps config resolved_id token _ _ Hexpire). fold sk lk.
  set (w2 := logged (Call_get sk) _).
  set (w4 := with_server _ (logged _ w2)).
  destruct (RedisFacts.release_frame w4 lk (encode_utf8 token)) as (Hframe & Hcalls & Hclock).
  assert (Hheld : stored w4 lk = Some (encode_utf8 token)).
  { unfold stored, w4, w2, with_server, logged. cbn [server clock].
    rewrite lookup_insert_ne by exact Hkeys. rewrite lookup_insert_eq.
    rewrite ManagerFacts.live_before; [reflexivity | ].
    unfold deadline. cbn [e_expires].
    assert (0 < inject_Z (Manager.lock_px config) / 1000)%Q.
    { assert (0 < inject_Z (Manager.lock_px config))%Q
        by (change 0%Q with (inject_Z 0); rewrite <- Zlt_Qlt; lia).
      apply Qlt_shift_div_l; [reflexivity | lra]. }
    lra. }
  eexists. split; [reflexivity | ]. split; [ | split].
  - rewrite Hcalls. unfold w4, w2, with_server, logged. cbn [calls].
    now rewrite <- !app_assoc.
  - rewrite (ExitFacts.stored_ext w4 _ sk (Hframe sk Hkeys) Hclock).
    exact (ExitFacts.stored_fresh _ _ _ _ _ Hexpire).
  - unfold release_lock_script, RELEASE_LOCK_SCRIPT. rewrite RedisFacts.stored_logged.
    rewrite bool_decide_eq_true_2 by exact Hheld. cbn [fst].
    apply RedisFacts.stored_with_server_delete.
Qed.

(** The theorem for a block that leaves the mapping alone, on the server
    that holds the sample session: the session is stored afterwards with its
    JSON field as a list, which is not the blob that was there. *)
Lemma lock_cycle_saves_the_decoded_session_witness :
  exists w5,
    Manager.lock PhpRef.loads PhpRef.dumps JsonRef.json_loads default_config None
                 (Some sample_id) token_a (fun w d => (w, d, None)) cart_world
    = Some (w5, Manager.Returned tt)
    /\ stored w5 sample_session_key = Some (PhpRef.dumps cart_session_decoded)
    /\ stored w5 sample_session_key <> stored cart_world sample_session_key.
Proof.
  destruct (lock_cycle_saves_the_decoded_session PhpRef.loads PhpRef.dumps JsonRef.json_loads
              default_config None (Some sample_id) sample_id token_a (fun w d => (w, d, None))
              (fun d => d) (PhpRef.dumps cart_session) cart_session cart_world eq_refl)
    as (w5 & Hlock & _ & Hsaved & _).
  - vm_compute. discriminate.
  - discriminate.
  - reflexivity.
  - vm_compute. reflexivity.
  - vm_compute. reflexivity.
  - vm_compute. discriminate.
  - vm_compute. reflexivity.
  - apply (bool_decide_unpack _). vm_compute. exact I.
  - reflexivity.
  - assert (Hsaved' : stored w5 sample_session_key = Some (PhpRef.dumps cart_session_decoded))
      by (etransitivity; [exact Hsaved | vm_compute; reflexivity]).
    exists w5. split; [exact Hlock | ]. split; [exact Hsaved' | ].
    rewrite Hsaved'. vm_compute. discriminate.
Defined.

(** ** The operations without the lock *)

Module FrameFacts.

(** A [SET] touches its own key only and takes no time. *)
Lemma redis_set_frame (w : world) (key : pystr) (value : pybytes) (nx : bool)
      (px ex : option Z) (k : pystr) :
  k <> key -> stored (fst (redis_set w key value nx px ex)) k = stored w k.
Proof.
  intros Hne. unfold redis_set.
  destruct (negb _); [reflexivity | ].
  destruct (nx && _); [reflexivity | ]. cbn [fst].
  apply ExitFacts.stored_ext; [ | reflexivity].
  cbn [with_server server logged]. now rewrite lookup_insert_ne by congruence.
Qed.

(** A [DEL] touches its own key only and takes no time. *)
Lemma redis_delete_frame (w : world) (key k : pystr) :
  k <> key -> stored (fst (redis_delete w key)) k = stored w k.
Proof.
  intros Hne. unfold redis_delete. rewrite RedisFacts.stored_logged.
  destruct (stored w key); [ | reflexivity]. cbn [fst].
  apply ExitFacts.stored_ext; [ | reflexivity].
  cbn [with_server server logged]. now rewrite lookup_delete_ne by congruence.
Qed.

(** Whether a [SET] without [nx] is accepted does not depend on the server. *)
Lemma redis_set_reply (w w' : world) (key : pystr) (value : pybytes) (px ex : option Z) :
  snd (redis_set w' key value false px ex) = snd (redis_set w key value false px ex).
Proof. unfold redis_set. now destruct (negb _). Qed.

End FrameFacts.

(** X20. The operations outside [lock] go past the lock: [get], [set],
    [save], [delete] and [exists] leave every key other than the session key
    as it is, so under a lock suffix that is not empty none of them takes,
    frees or changes the session's lock; and what each of them returns or
    raises depends on the server through the session key alone, so that a
    lock held by another caller neither delays nor stops them. *)
Theorem unlocked_operations_go_past_the_lock
        (loads : pybytes -> option record) (dumps : record -> pybytes)
        (json_loads : pystr -> option pyvalue) (config : SessionConfig)
        (contextvar session_id : option pystr) (resolved_id : pystr)
        (field : option pystr) (key : pystr) (value : pyvalue) (data : record) (w : world) :
  Manager._resolve_session_id contextvar session_id = inr resolved_id ->
  let sk := Manager._session_key config resolved_id in
  let lk := Manager._lock_key config resolved_id in
  let after := fun w0 =>
    [fst (Manager.get loads json_loads config contextvar field session_id w0);
     fst (Manager.set loads dumps config contextvar key value session_id w0);
     fst (Manager.save dumps config contextvar data session_id w0);
     fst (Manager.delete config contextvar session_id w0);
     fst (Manager.exists_ config contextvar session_id w0)] in
  (forall w1 k, w1 ∈ after w -> k <> sk -> stored w1 k = stored w k)
  /\ (lock_suffix config <> [] -> forall w1, w1 ∈ after w -> stored w1 lk = stored w lk)
  /\ (forall w',
         stored w' sk = stored w sk ->
         snd (Manager.get loads json_loads config contextvar field session_id w')
         = snd (Manager.get loads json_loads config contextvar field session_id w)
         /\ snd (Manager.set loads dumps config contextvar key value session_id w')
            = snd (Manager.set loads dumps config contextvar key value session_id w)
         /\ snd (Manager.save dumps config contextvar data session_id w')
            = snd (Manager.save dumps config contextvar data session_id w)
         /\ snd (Manager.delete config contextvar session_id w')
            = snd (Manager.delete config contextvar session_id w)
         /\ snd (Manager.exists_ config contextvar session_id w')
            = snd (Manager.exists_ config contextvar session_id w)).
Proof.
  intros Hres. cbv zeta.
  assert (Hframe : forall w1 k,
             w1 ∈ [fst (Manager.get loads json_loads config contextvar field session_id w);
                   fst (Manager.set loads dumps config contextvar key value session_id w);
                   fst (Manager.save dumps config contextvar data session_id w);
                   fst (Manager.delete config contextvar session_id w);
                   fst (Manager.exists_ config contextvar session_id w)] ->
             k <> Manager._session_key config resolved_id -> stored w1 k = stored w k).
  { intros w1 k Hin Hne.
    repeat (apply elem_of_cons in Hin as [-> | Hin]); [ | | | | | inversion Hin].
    - unfold Manager.get. rewrite Hres. unfold redis_get. cbv zeta.
      rewrite RedisFacts.stored_logged.
      destruct (stored w _) as [blob | ]; [ | reflexivity].
      destruct (Manager._decode_session _ _ _ _); [reflexivity | ].
      now destruct field.
    - unfold Manager.set. rewrite Hres. unfold redis_get. cbv zeta.
      rewrite RedisFacts.stored_logged.
      set (loaded := if Manager.truthy_bytes _ then _ else _).
      destruct loaded as [e | d]; [reflexivity | ].
      pose proof (FrameFacts.redis_set_frame
                    (logged (Call_get (Manager._session_key config resolved_id)) w)
                    (Manager._session_key config resolved_id)
                    (dumps (dict_setitem d key value)) false None
                    (Some (session_expire config)) k Hne) as Hset.
      destruct (redis_set _ _ _ _ _ _) as [w2 [e | reply]]; exact Hset.
    - unfold Manager.save. rewrite Hres.
      pose proof (FrameFacts.redis_set_frame w (Manager._session_key config resolved_id)
                    (dumps data) false None (Some (session_expire config)) k Hne) as Hset.
      destruct (redis_set _ _ _ _ _ _) as [w2 [e | reply]]; exact Hset.
    - unfold Manager.delete. rewrite Hres.
      pose proof (FrameFacts.redis_delete_frame w (Manager._session_key config resolved_id)
                    k Hne) as Hdel.
      destruct (redis_delete _ _) as [w2 reply]. exact Hdel.
    - unfold Manager.exists_. rewrite Hres. reflexivity. }
  split; [exact Hframe | ]. split.
  { intros Hsuffix w1 Hin. apply (Hframe w1 _ Hin).
    unfold Manager._lock_key. now apply ManagerFacts.app_suffix_ne. }
  intros w' Hsame. repeat split.
  - unfold Manager.get. rewrite Hres. unfold redis_get. cbv zeta.
    rewrite !RedisFacts.stored_logged, Hsame.
    destruct (stored w _) as [blob | ]; [ | reflexivity].
    destruct (Manager._decode_session _ _ _ _); [reflexivity | ].
    now destruct field.
  - unfold Manager.set. rewrite Hres. unfold redis_get. cbv zeta.
    rewrite !RedisFacts.stored_logged, Hsame.
    set (loaded := if Manager.truthy_bytes _ then _ else _).
    destruct loaded as [e | d]; [reflexivity | ].
    pose proof (FrameFacts.redis_set_reply
                  (logged (Call_get (Manager._session_key config resolved_id)) w)
                  (logged (Call_get (Manager._session_key config resolved_id)) w')
                  (Manager._session_key config resolved_id)
                  (dumps (dict_setitem d key value)) None
                  (Some (session_expire config))) as Hreply.
    destruct (redis_set (logged _ w') _ _ _ _ _) as [w2' [e' | reply']],
             (redis_set (logged _ w) _ _ _ _ _) as [w2 [e | reply]];
      cbn [snd] in *; congruence.
  - unfold Manager.save. rewrite Hres.
    pose proof (FrameFacts.redis_set_reply w w' (Manager._session_key config resolved_id)
                  (dumps data) None (Some (session_expire config))) as Hreply.
    destruct (redis_set w' _ _ _ _ _) as [w2' [e' | reply']],
             (redis_set w _ _ _ _ _) as [w2 [e | reply]];
      cbn [snd] in *; congruence.
  - unfold Manager.delete. rewrite Hres. unfold redis_delete.
    rewrite !RedisFacts.stored_logged, Hsame. now destruct (stored w _).
  - unfold Manager.exists_. rewrite Hres. unfold redis_exists. cbv zeta. cbn [snd].
    now rewrite !RedisFacts.stored_logged, Hsame.
Qed.

(** The theorem for a [save] and a [get] of the sample session while
    another holder's lock is in place: the lock stays as it is, and the
    [get] returns what it returns without a lock. *)
Lemma unlocked_operations_go_past_the_lock_witness :
  stored (fst (Manager.save PhpRef.dumps default_config None cart_session (Some sample_id)
                            locked_world)) sample_lock_key
  = Some (encode_utf8 token_b)
  /\ snd (Manager.get PhpRef.loads JsonRef.json_loads default_config None None (Some sample_id)
                      locked_world)
     = Manager.Returned PNone.
Proof.
  destruct (unlocked_operations_go_past_the_lock PhpRef.loads PhpRef.dumps JsonRef.json_loads
              default_config None (Some sample_id) sample_id None (str "cart_count") (PInt 5)
              cart_session locked_world eq_refl)
    as (_ & Hlock & Hsame).
  split.
  - etransitivity; [ | vm_compute; reflexivity].
    apply Hlock; [discriminate | ]. rewrite !elem_of_cons. right; right; left. reflexivity.
  - destruct (Hsame fresh_world) as (Hget & _); [vm_compute; reflexivity | ].
    etransitivity; [symmetry; exact Hget | vm_compute; reflexivity].
Defined.
